(** * Sacramento Events Finder: a shallow embedding and its verified properties

    The program asks a hosted model for today's events, retries the request
    with exponential backoff, extracts and parses the JSON it gets back,
    checks its shape and pretty-prints it.  The development follows the
    source files: [src/config.py], [src/openai_client.py],
    [src/json_handler.py] and [main.py].

    Part I holds the embedding (data, effects, the Python built-ins the code
    relies on, then one module per source class); Part II holds the lemmas
    and the theorems. *)

From Stdlib Require Import String Ascii Bool ZArith NArith Lia List.
From Stdlib Require Import DecimalPos DecimalN.
Import ListNotations.

Set Implicit Arguments.

(** * Part I: the embedding *)

(** ** Strings

    A Python [str] is a sequence of Unicode code points. *)

Definition pychar : Type := N.
Definition pystr : Type := list pychar.

(** [pys] reads a literal of the development as a Python string. *)
Definition pys (s : string) : pystr :=
  map N_of_ascii (list_ascii_of_string s).
Arguments pys : simpl never.

Definition chr_eqb (a b : pychar) : bool := N.eqb a b.

Fixpoint str_eqb (a b : pystr) : bool :=
  match a, b with
  | [], [] => true
  | x :: a', y :: b' => chr_eqb x y && str_eqb a' b'
  | _, _ => false
  end.

(** [strip_prefix p s] is [Some r] when [s = p ++ r]. *)
Fixpoint strip_prefix (p s : pystr) : option pystr :=
  match p with
  | [] => Some s
  | c :: p' =>
      match s with
      | d :: s' => if chr_eqb c d then strip_prefix p' s' else None
      | [] => None
      end
  end.

(** [str.startswith]. *)
Definition startswith (s p : pystr) : bool :=
  match strip_prefix p s with Some _ => true | None => false end.

(** [sub in s] for two strings: [sub] occurs somewhere in [s]. *)
Fixpoint str_contains (sub s : pystr) : bool :=
  startswith s sub ||
  match s with
  | [] => false
  | _ :: s' => str_contains sub s'
  end.

(** [Py_UNICODE_ISSPACE]: the characters that [\s] matches in a [str]
    pattern and that [str.strip] removes. *)
Definition isspace (c : pychar) : bool :=
  ((9 <=? c) && (c <=? 13) || (28 <=? c) && (c <=? 32)
   || (c =? 133) || (c =? 160) || (c =? 5760)
   || (8192 <=? c) && (c <=? 8202)
   || (c =? 8232) || (c =? 8233) || (c =? 8239) || (c =? 8287)
   || (c =? 12288))%N.

(** [str.lstrip], [str.rstrip] and [str.strip] without argument. *)
Fixpoint lstrip (s : pystr) : pystr :=
  match s with
  | c :: s' => if isspace c then lstrip s' else s
  | [] => []
  end.

Definition rstrip (s : pystr) : pystr := rev (lstrip (rev s)).

Definition strip (s : pystr) : pystr := rstrip (lstrip s).

(** ** Exceptions and effects

    [exception] lists the subclasses of Python's [Exception] that the
    program meets; [raised] is anything a [raise] can carry, including the
    two [BaseException]s that [except Exception] lets through. *)

Inductive json_error_msg : Type :=
| ExpectingValue
| ExpectingPropertyName
| ExpectingColon
| ExpectingComma
| UnterminatedString
| InvalidControlCharacter
| InvalidEscape
| InvalidUnicodeEscape
| ExtraData
| UnexpectedBOM.

Inductive exception : Type :=
| JSONDecodeError (msg : json_error_msg) (doc : pystr) (pos : nat)
| TypeError
| AttributeError
| KeyError (key : pystr)
| RecursionError
| ValueError (msg : pystr)
| RuntimeError (msg : pystr).

Inductive raised : Type :=
| KeyboardInterrupt
| SystemExit (code : Z)
| Exception (e : exception).

(** What a collaborator outside the program (the clock, the SDK, the remote
    service) can do instead of returning: fail with an [Exception], or be
    interrupted from the keyboard. *)
Inductive fault : Type :=
| Interrupted
| Failed (e : exception).

Definition raised_of_fault (f : fault) : raised :=
  match f with
  | Interrupted => KeyboardInterrupt
  | Failed e => Exception e
  end.

Inductive result (A : Type) : Type :=
| Ok (a : A)
| Raise (x : raised).
Arguments Ok {A} a.
Arguments Raise {A} x.

(** Console lines.  Each constructor stands for a [print] of the source,
    or for a few consecutive ones that go together, and carries the values
    the text is formatted from; blank lines and rulers are left out. *)
Inductive line : Type :=
(* openai_client.py *)
| SearchingForEvents (attempt max_retries : Z)
| ReceivedResponse
| EmptyResponse (attempt : Z)
| ResponseRepr
| ErrorOnAttempt (attempt : Z) (e : exception)
| RetryingIn (wait_time : Z)
| AllRetriesFailed
(* json_handler.py *)
| JSONParsingError (e : exception)
| ErrorAtLineColumn (lineno colno : nat)
| UnexpectedParsingError (e : exception)
| MissingEventsKey
| EventsNotAList
| EventMissingField (number : nat) (field : pystr)
| EventBadInstagramHandles (number : nat)
| EventBadIsFree (number : nat)
| EventBadIsSoldOut (number : nat)
| StructureValidated (event_count : nat)
| FewerThanMax (event_count : nat)
| ExpectedIfFew
| MaximumFound
| ValidationError (e : exception)
| FailedToParse
| ValidationFailedWillDisplay
(* main.py *)
| Header
| ValidatingConfiguration
| ConfigurationValid
| SearchInfo
| InitializingClient
| ClientInitialized
| SearchingSacramento
| ProcessingResponse
| FailedToRetrieve
| PossibleReasons
| FailedToProcess
| RawResponse (shown : pystr)
| Results (formatted_json : pystr)
| SearchCompleted
| SearchCancelled
| UnexpectedError (e : exception).

(** What a run does to the outside world, in order. *)
Inductive event : Type :=
| Print (l : line)
| ApiRequest (attempt : Z)
| Sleep (seconds : Z)
| PrintTraceback.

(** A computation yields the events it performed and either a value or the
    exception that left it. *)
Definition io (A : Type) : Type := (list event * result A)%type.

Definition ret {A} (a : A) : io A := ([], Ok a).

Definition raise {A} (x : raised) : io A := ([], Raise x).

Definition bind {A B} (m : io A) (k : A -> io B) : io B :=
  match m with
  | (t, Ok a) => let (t', r) := k a in (t ++ t', r)
  | (t, Raise x) => (t, Raise x)
  end.

Definition emit (e : event) : io unit := ([e], Ok tt).

Definition print (l : line) : io unit := emit (Print l).

Definition lift {A} (r : result A) : io A := ([], r).

(** [try: body / except ...: handler]: [handler x] is [None] when no
    clause matches [x], which then keeps propagating. *)
Definition try_except {A} (body : io A) (handler : raised -> option (io A))
  : io A :=
  match body with
  | (t, Ok a) => (t, Ok a)
  | (t, Raise x) =>
      match handler x with
      | Some h => let (t', r) := h in (t ++ t', r)
      | None => (t, Raise x)
      end
  end.

(** The clause [except Exception as e]. *)
Definition except_Exception {A} (h : exception -> io A)
  : raised -> option (io A) :=
  fun x => match x with
           | Exception e => Some (h e)
           | _ => None
           end.

Declare Scope io_scope.
Delimit Scope io_scope with io.
Notation "x <- m ;; k" := (bind m (fun x => k))
  (at level 61, m at next level, right associativity) : io_scope.
Notation "m ;; k" := (bind m (fun _ => k))
  (at level 61, right associativity) : io_scope.

(** [range(n)]. *)
Definition py_range (n : Z) : list Z :=
  map Z.of_nat (seq 0 (Z.to_nat n)).

(** ** src/config.py *)

Module Config.

Definition MAX_EVENTS : Z := 10.
Definition TIMEOUT_SECONDS : Z := 120.
Definition MAX_RETRIES : Z := 3.

(** [Config.validate], with the key read from the environment as its
    argument. *)
Definition validate (OPENAI_API_KEY : pystr) : result bool :=
  match OPENAI_API_KEY with
  | [] => Raise (Exception (ValueError (pys "OPENAI_API_KEY is not set")))
  | _ =>
      if negb (startswith OPENAI_API_KEY (pys "sk-"))
      then Raise (Exception (ValueError (pys "OPENAI_API_KEY appears to be invalid")))
      else Ok true
  end.

End Config.

(** ** src/openai_client.py *)

Module OpenAIClient.

(** The response object of the SDK: [output_text] is [None] when the
    attribute is absent or holds [None]. *)
Record response : Type := Response { output_text : option pystr }.

(** What [client.responses.create] does at one attempt. *)
Inductive create_outcome : Type :=
| Returns (r : response)
| Raises (f : fault).

(** The remote service, as seen by the client: the outcome of the request
    made at each attempt index. *)
Definition service : Type := Z -> create_outcome.

Definition create (svc : service) (attempt : Z) : io response :=
  (emit (ApiRequest attempt) ;;
   match svc attempt with
   | Returns r => ret r
   | Raises f => raise (raised_of_fault f)
   end)%io.

(** [hasattr(response, 'output_text') and response.output_text]. *)
Definition has_text (r : response) : option pystr :=
  match output_text r with
  | Some (c :: s) => Some (c :: s)
  | _ => None
  end.

(** How one turn of the [for] loop ends: by [return] or by falling through
    to the next turn. *)
Inductive turn (A : Type) : Type :=
| Return (a : A)
| Next.
Arguments Return {A} a.
Arguments Next {A}.

(** The [try] block of one attempt. *)
Definition attempt_body (max_retries : Z) (svc : service) (attempt : Z)
  : io (turn (option pystr)) :=
  (print (SearchingForEvents attempt max_retries) ;;
   response <- create svc attempt ;;
   match has_text response with
   | Some content =>
       print ReceivedResponse ;;
       ret (Return (Some content))
   | None =>
       print (EmptyResponse attempt) ;;
       print ResponseRepr ;;
       ret Next
   end)%io.

(** The [except Exception as e] clause of one attempt. *)
Definition attempt_handler (max_retries : Z) (attempt : Z) (e : exception)
  : io (turn (option pystr)) :=
  (print (ErrorOnAttempt attempt e) ;;
   if (attempt <? max_retries - 1)%Z then
     let wait_time := (2 ^ attempt)%Z in
     print (RetryingIn wait_time) ;;
     emit (Sleep wait_time) ;;
     ret Next
   else
     print AllRetriesFailed ;;
     ret (Return None))%io.

(** [for attempt in attempts: ...] followed by the final [return None]. *)
Fixpoint attempts_loop (max_retries : Z) (svc : service) (attempts : list Z)
  : io (option pystr) :=
  match attempts with
  | [] => ret None
  | attempt :: rest =>
      (t <- try_except (attempt_body max_retries svc attempt)
                       (except_Exception (attempt_handler max_retries attempt)) ;;
       match t with
       | Return r => ret r
       | Next => attempts_loop max_retries svc rest
       end)%io
  end.

(** [OpenAIClient.search_events].  The prompt is built before the loop and
    is the same at every attempt; it plays no part in what follows and is
    left out. *)
Definition search_events (max_retries : Z) (svc : service)
  : io (option pystr) :=
  attempts_loop max_retries svc (py_range max_retries).

End OpenAIClient.

(** ** The regular expressions of [json_handler.py]

    The three patterns of [extract_json] are written out as the scans the
    [re] module performs for them. *)

Module re.

(** The characters the patterns name. *)
Definition backtick : pychar := 96%N.
Definition lbrace : pychar := 123%N.
Definition rbrace : pychar := 125%N.

(** Length of the longest run of whitespace at the start of [s]: what the
    greedy [\s*] consumes. *)
Fixpoint spaces (s : pystr) : nat :=
  match s with
  | c :: s' => if isspace c then S (spaces s') else O
  | [] => O
  end.

(** A pattern of the form [marker\s*], tried at the start of [s]: the
    length of its match there, if it matches. *)
Definition match_marker (marker : pystr) (s : pystr) : option nat :=
  match strip_prefix marker s with
  | Some rest => Some (length marker + spaces rest)%nat
  | None => None
  end.

(** [re.sub(pattern, '', s)] for a pattern given by its matcher [m]: the
    scan goes left to right; where a match of positive length starts, its
    characters are dropped and the scan resumes after it; any other
    character is kept.  [skip] counts the characters of the current match
    still to drop. *)
Fixpoint remove_matches (m : pystr -> option nat) (skip : nat) (s : pystr)
  : pystr :=
  match s with
  | [] => []
  | c :: s' =>
      match skip with
      | S k => remove_matches m k s'
      | O =>
          match m s with
          | Some (S len) => remove_matches m len s'
          | _ => c :: remove_matches m 0 s'
          end
      end
  end.

(** [re.sub(r'```json\s*', '', s)]. *)
Definition sub_json_fence (s : pystr) : pystr :=
  remove_matches (match_marker (pys "```json")) 0 s.

(** [re.sub(r'```\s*', '', s)]. *)
Definition sub_fence (s : pystr) : pystr :=
  remove_matches (match_marker (pys "```")) 0 s.

(** The longest prefix of [s] that ends with [c]: what [.*] followed by
    the literal [c] matches at the start of [s] under [re.DOTALL], the
    greedy [.*] giving characters back until [c] fits. *)
Fixpoint upto_last (c : pychar) (s : pystr) : option pystr :=
  match s with
  | [] => None
  | d :: s' =>
      match upto_last c s' with
      | Some p => Some (d :: p)
      | None => if chr_eqb d c then Some [d] else None
      end
  end.

(** [re.search(r'\{.*\}', s, re.DOTALL)]: the text of the first match,
    start positions being tried from the left. *)
Fixpoint search_braces (s : pystr) : option pystr :=
  match s with
  | [] => None
  | c :: s' =>
      if chr_eqb c lbrace then
        match upto_last rbrace s' with
        | Some body => Some (c :: body)
        | None => search_braces s'
        end
      else search_braces s'
  end.

End re.

(** ** Values

    Converting between a binary64 float and its decimal text is the work
    of the interpreter ([float(s)], [float.__repr__]); it is taken as
    given.  [float_of_str] is [float]; [floatstr] is the function of that
    name in [json.encoder]: [float.__repr__], or one of [NaN], [Infinity]
    and [-Infinity]. *)
Class FloatText : Type := {
  pyfloat : Type;
  float_of_str : pystr -> pyfloat;
  floatstr : pyfloat -> pystr
}.

(** The Python values [json.dumps] can serialise and [json.loads] can
    produce.  A dictionary keeps its items in insertion order; its keys are
    strings, as in [Dict[str, Any]]. *)
#[warnings="-register-all"]
Inductive pyval {F : FloatText} : Type :=
| PNone
| PBool (b : bool)
| PInt (z : Z)
| PFloat (f : pyfloat)
| PStr (s : pystr)
| PList (l : list pyval)
| PTuple (l : list pyval)
| PDict (items : list (pystr * pyval)).

Section Dict.

Context {F : FloatText}.

(** [key in d]. *)
Fixpoint dict_has (key : pystr) (d : list (pystr * pyval)) : bool :=
  match d with
  | [] => false
  | (k, _) :: d' => str_eqb key k || dict_has key d'
  end.

(** [d.get(key)], [None] standing for a missing key. *)
Fixpoint dict_get (key : pystr) (d : list (pystr * pyval)) : option pyval :=
  match d with
  | [] => None
  | (k, v) :: d' => if str_eqb key k then Some v else dict_get key d'
  end.

(** [d[key] = v]: a key already there keeps its place. *)
Fixpoint dict_set (key : pystr) (v : pyval) (d : list (pystr * pyval))
  : list (pystr * pyval) :=
  match d with
  | [] => [(key, v)]
  | (k, v') :: d' =>
      if str_eqb key k then (k, v) :: d' else (k, v') :: dict_set key v d'
  end.

(** [dict(pairs)]. *)
Definition dict_of_pairs (pairs : list (pystr * pyval)) : list (pystr * pyval) :=
  fold_left (fun d kv => dict_set (fst kv) (snd kv) d) pairs [].

(** [isinstance(v, list)] and [isinstance(v, bool)]. *)
Definition is_list (v : pyval) : bool :=
  match v with PList _ => true | _ => false end.

Definition is_bool (v : pyval) : bool :=
  match v with PBool _ => true | _ => false end.

(** [v == key] for a string [key]. *)
Definition eq_str (key : pystr) (v : pyval) : bool :=
  match v with PStr s => str_eqb key s | _ => false end.

(** [key in container] for a string [key]: membership in a dictionary's
    keys, in a list or a tuple, substring of a string; a [TypeError] for a
    value that is not a container. *)
Definition py_in (key : pystr) (container : pyval) : result bool :=
  match container with
  | PDict d => Ok (dict_has key d)
  | PList l | PTuple l => Ok (existsb (eq_str key) l)
  | PStr s => Ok (str_contains key s)
  | PNone | PBool _ | PInt _ | PFloat _ => Raise (Exception TypeError)
  end.

(** [container[key]] for a string [key]. *)
Definition py_getitem (container : pyval) (key : pystr) : result pyval :=
  match container with
  | PDict d =>
      match dict_get key d with
      | Some v => Ok v
      | None => Raise (Exception (KeyError key))
      end
  | _ => Raise (Exception TypeError)
  end.

(** [obj.get(key)]: only a dictionary has the method. *)
Definition py_get (obj : pyval) (key : pystr) : result pyval :=
  match obj with
  | PDict d =>
      match dict_get key d with
      | Some v => Ok v
      | None => Ok PNone
      end
  | _ => Raise (Exception AttributeError)
  end.

End Dict.

(** ** The [json] module

    [loads] and [dumps] are written after CPython's [json.decoder],
    [json.scanner] and [json.encoder].  Two limits of the interpreter are
    left out: the recursion limit, which stops the decoder on a document
    nested a thousand levels deep, and the cap on the number of digits in
    the text of an integer. *)

Module json.

(** Characters are written by their code: 34 is the double quote, 92 the
    backslash, 44 the comma, 58 the colon, 91 and 93 the square brackets,
    123 and 125 the braces, 45 the minus sign, 46 the point, 48 to 57 the
    digits, 10 the newline and 32 the space. *)
Definition backslash : pychar := 92%N.

(** [WHITESPACE = [ \t\n\r]*]. *)
Definition is_ws (c : pychar) : bool :=
  ((c =? 32) || (c =? 9) || (c =? 10) || (c =? 13))%N.

Fixpoint skip_ws (s : pystr) : pystr :=
  match s with
  | c :: s' => if is_ws c then skip_ws s' else s
  | [] => []
  end.

Definition is_digit (c : pychar) : bool := ((48 <=? c) && (c <=? 57))%N.

(** The decimal digits at the start of [s], and what follows them. *)
Fixpoint span_digits (s : pystr) : pystr * pystr :=
  match s with
  | c :: s' =>
      if is_digit c then let (ds, r) := span_digits s' in (c :: ds, r)
      else ([], s)
  | [] => ([], [])
  end.

(** *** Integers and their decimal text *)

Definition digit_of_char (c : pychar) : Decimal.uint -> Decimal.uint :=
  match c with
  | 48 => Decimal.D0 | 49 => Decimal.D1 | 50 => Decimal.D2
  | 51 => Decimal.D3 | 52 => Decimal.D4 | 53 => Decimal.D5
  | 54 => Decimal.D6 | 55 => Decimal.D7 | 56 => Decimal.D8
  | _ => Decimal.D9
  end%N.

Fixpoint uint_of_digits (ds : pystr) : Decimal.uint :=
  match ds with
  | [] => Decimal.Nil
  | c :: ds' => digit_of_char c (uint_of_digits ds')
  end.

Fixpoint digits_of_uint (d : Decimal.uint) : pystr :=
  match d with
  | Decimal.Nil => []
  | Decimal.D0 d' => 48 :: digits_of_uint d'
  | Decimal.D1 d' => 49 :: digits_of_uint d'
  | Decimal.D2 d' => 50 :: digits_of_uint d'
  | Decimal.D3 d' => 51 :: digits_of_uint d'
  | Decimal.D4 d' => 52 :: digits_of_uint d'
  | Decimal.D5 d' => 53 :: digits_of_uint d'
  | Decimal.D6 d' => 54 :: digits_of_uint d'
  | Decimal.D7 d' => 55 :: digits_of_uint d'
  | Decimal.D8 d' => 56 :: digits_of_uint d'
  | Decimal.D9 d' => 57 :: digits_of_uint d'
  end%N.

(** [int(text)] for a text made of an optional minus sign and decimal
    digits. *)
Definition int_of_str (text : pystr) : Z :=
  match strip_prefix [45%N] text with
  | Some ds => Z.opp (Z.of_N (N.of_uint (uint_of_digits ds)))
  | None => Z.of_N (N.of_uint (uint_of_digits text))
  end.

(** [int.__repr__]. *)
Definition int_repr (z : Z) : pystr :=
  match z with
  | Zneg p => 45%N :: digits_of_uint (Pos.to_uint p)
  | _ => digits_of_uint (N.to_uint (Z.to_N z))
  end.

(** *** The decoder *)

(** What a scan from some position yields: a value and the text after it,
    the [JSONDecodeError] to raise with the text at the position it
    reports, or nothing for lack of fuel. *)
Inductive scan (A : Type) : Type :=
| Scanned (a : A) (rest : pystr)
| Stop (msg : json_error_msg) (at_ : pystr)
| OutOfFuel.
Arguments Scanned {A} a rest.
Arguments Stop {A} msg at_.
Arguments OutOfFuel {A}.

Definition hex_value (c : pychar) : option N :=
  (if (48 <=? c) && (c <=? 57) then Some (c - 48)
   else if (97 <=? c) && (c <=? 102) then Some (c - 87)
   else if (65 <=? c) && (c <=? 70) then Some (c - 55)
   else None)%N.

(** The four hexadecimal digits of a [\uXXXX] escape. *)
Definition hex4 (s : pystr) : option N :=
  match s with
  | a :: b :: c :: d :: _ =>
      match hex_value a, hex_value b, hex_value c, hex_value d with
      | Some x, Some y, Some z, Some w =>
          Some (4096 * x + 256 * y + 16 * z + w)%N
      | _, _, _, _ => None
      end
  | _ => None
  end.

(** The table [BACKSLASH]. *)
Definition simple_escape (c : pychar) : option pychar :=
  (if c =? 34 then Some 34         (* quote *)
   else if c =? 92 then Some 92    (* backslash *)
   else if c =? 47 then Some 47    (* slash *)
   else if c =? 98 then Some 8     (* b *)
   else if c =? 102 then Some 12   (* f *)
   else if c =? 110 then Some 10   (* n *)
   else if c =? 114 then Some 13   (* r *)
   else if c =? 116 then Some 9    (* t *)
   else None)%N.

Inductive escape : Type :=
| Escaped (c : pychar) (consumed : nat)
| BadEscape (msg : json_error_msg) (at_ : pystr)
| NoEscape.

(** What follows a backslash: [bs] is the text from the backslash on, [s]
    the text after it.  The result gives the character denoted and how
    many characters after the backslash denote it. *)
Definition decode_escape (bs s : pystr) : escape :=
  match s with
  | [] => NoEscape
  | esc :: r =>
      if (esc =? 117)%N then
        match hex4 r with
        | None => BadEscape InvalidUnicodeEscape s
        | Some uni =>
            if ((55296 <=? uni) && (uni <=? 56319))%N
               && startswith (skipn 4 r) [backslash; 117%N]
            then
              match hex4 (skipn 6 r) with
              | None => BadEscape InvalidUnicodeEscape (skipn 5 r)
              | Some uni2 =>
                  if ((56320 <=? uni2) && (uni2 <=? 57343))%N
                  then Escaped (65536 + ((uni - 55296) * 1024 + (uni2 - 56320)))%N 11
                  else Escaped uni 5
              end
            else Escaped uni 5
        end
      else
        match simple_escape esc with
        | Some c => Escaped c 1
        | None => BadEscape InvalidEscape bs
        end
  end.

(** [scanstring] in strict mode.  [q] is the text from the opening quote
    on, [s] the text being read, [acc] the characters read so far, last
    first, and [skip] the number of characters of the current escape
    still to pass over. *)
Fixpoint scanstring (q : pystr) (skip : nat) (acc : pystr) (s : pystr)
  : scan pystr :=
  match s with
  | [] => Stop UnterminatedString q
  | c :: r =>
      match skip with
      | S k => scanstring q k acc r
      | O =>
          if (c =? 34)%N then Scanned (rev acc) r
          else if (c =? 92)%N then
            match decode_escape s r with
            | Escaped e n => scanstring q n (e :: acc) r
            | BadEscape msg at_ => Stop msg at_
            | NoEscape => Stop UnterminatedString q
            end
          else if (c <? 32)%N then Stop InvalidControlCharacter s
          else scanstring q 0 (c :: acc) r
      end
  end.

(** [NUMBER_RE] tried at the start of [s].  Its three groups are the
    integer part (an optional minus sign, then a lone zero or a digit from
    1 to 9 followed by as many digits as there are), the fraction (a point
    and at least one digit) and the exponent (e or E, an optional sign and
    at least one digit); the last two are optional, an absent group being
    empty.  Each function gives its group and the text after it. *)
Definition match_digits (s : pystr) : option (pystr * pystr) :=
  match s with
  | c :: r =>
      if (c =? 48)%N then Some ([c], r)
      else if is_digit c then let (ds, r') := span_digits r in Some (c :: ds, r')
      else None
  | [] => None
  end.

Definition match_integer (s : pystr) : option (pystr * pystr) :=
  match strip_prefix [45%N] s with
  | Some r =>
      match match_digits r with
      | Some (ds, r') => Some (45%N :: ds, r')
      | None => None
      end
  | None => match_digits s
  end.

Definition match_frac (s : pystr) : pystr * pystr :=
  match strip_prefix [46%N] s with
  | Some r =>
      match span_digits r with
      | ([], _) => ([], s)
      | (ds, r') => (46%N :: ds, r')
      end
  | None => ([], s)
  end.

Definition match_sign (s : pystr) : pystr * pystr :=
  match s with
  | c :: r => if ((c =? 45) || (c =? 43))%N then ([c], r) else ([], s)
  | [] => ([], s)
  end.

Definition match_exp (s : pystr) : pystr * pystr :=
  match s with
  | e :: r =>
      if ((e =? 101) || (e =? 69))%N then
        let (sign, r1) := match_sign r in
        match span_digits r1 with
        | ([], _) => ([], s)
        | (ds, r') => (e :: sign ++ ds, r')
        end
      else ([], s)
  | [] => ([], s)
  end.

Definition match_number (s : pystr) : option (pystr * pystr * pystr * pystr) :=
  match match_integer s with
  | Some (integer, r) =>
      let (frac, r1) := match_frac r in
      let (exp, r2) := match_exp r1 in
      Some (integer, frac, exp, r2)
  | None => None
  end.

Section Codec.

Context {F : FloatText}.

(** The part of [scan_once] that stands on its own: the literals and the
    numbers. *)
Definition scan_atom (s : pystr) : scan pyval :=
  match strip_prefix (pys "null") s,
        strip_prefix (pys "true") s,
        strip_prefix (pys "false") s with
  | Some rest, _, _ => Scanned PNone rest
  | None, Some rest, _ => Scanned (PBool true) rest
  | None, None, Some rest => Scanned (PBool false) rest
  | None, None, None =>
      match match_number s with
      | Some (integer, [], [], rest) =>
          Scanned (PInt (int_of_str integer)) rest
      | Some (integer, frac, exp, rest) =>
          Scanned (PFloat (float_of_str (integer ++ frac ++ exp))) rest
      | None =>
          match strip_prefix (pys "NaN") s,
                strip_prefix (pys "Infinity") s,
                strip_prefix (pys "-Infinity") s with
          | Some rest, _, _ =>
              Scanned (PFloat (float_of_str (pys "NaN"))) rest
          | None, Some rest, _ =>
              Scanned (PFloat (float_of_str (pys "Infinity"))) rest
          | None, None, Some rest =>
              Scanned (PFloat (float_of_str (pys "-Infinity"))) rest
          | None, None, None => Stop ExpectingValue s
          end
      end
  end.

(** The body of [scan_once], the loops of [JSONObject] and [JSONArray]
    being given. *)
Definition scan_once_body
  (object_loop : pystr -> scan (list (pystr * pyval)))
  (array_loop : pystr -> scan (list pyval))
  (s : pystr) : scan pyval :=
  match s with
  | [] => Stop ExpectingValue s
  | nextchar :: r =>
      if (nextchar =? 34)%N then
        match scanstring s 0 [] r with
        | Scanned str rest => Scanned (PStr str) rest
        | Stop msg at_ => Stop msg at_
        | OutOfFuel => OutOfFuel
        end
      else if (nextchar =? 123)%N then
        match strip_prefix [125%N] (skip_ws r) with
        | Some rest => Scanned (PDict []) rest
        | None =>
            match object_loop (skip_ws r) with
            | Scanned pairs rest => Scanned (PDict (dict_of_pairs pairs)) rest
            | Stop msg at_ => Stop msg at_
            | OutOfFuel => OutOfFuel
            end
        end
      else if (nextchar =? 91)%N then
        match strip_prefix [93%N] (skip_ws r) with
        | Some rest => Scanned (PList []) rest
        | None =>
            match array_loop (skip_ws r) with
            | Scanned values rest => Scanned (PList values) rest
            | Stop msg at_ => Stop msg at_
            | OutOfFuel => OutOfFuel
            end
        end
      else scan_atom s
  end.

(** One turn of the loop of [JSONArray]: [s] is at the start of a value
    and [values] holds the values read so far, last first. *)
Definition array_items_body
  (scan_value : pystr -> scan pyval)
  (loop : list pyval -> pystr -> scan (list pyval))
  (values : list pyval) (s : pystr) : scan (list pyval) :=
  match scan_value s with
  | Scanned value rest =>
      match strip_prefix [93%N] (skip_ws rest) with
      | Some r => Scanned (rev (value :: values)) r
      | None =>
          match strip_prefix [44%N] (skip_ws rest) with
          | Some r => loop (value :: values) (skip_ws r)
          | None => Stop ExpectingComma (skip_ws rest)
          end
      end
  | Stop msg at_ => Stop msg at_
  | OutOfFuel => OutOfFuel
  end.

(** One turn of the loop of [JSONObject]: [s] is where a key is expected
    and [pairs] holds the items read so far, last first. *)
Definition object_items_body
  (scan_value : pystr -> scan pyval)
  (loop : list (pystr * pyval) -> pystr -> scan (list (pystr * pyval)))
  (pairs : list (pystr * pyval)) (s : pystr) : scan (list (pystr * pyval)) :=
  match strip_prefix [34%N] s with
  | Some r =>
      match scanstring s 0 [] r with
      | Scanned key rest =>
          match strip_prefix [58%N] (skip_ws rest) with
          | Some r1 =>
              match scan_value (skip_ws r1) with
              | Scanned value rest1 =>
                  match strip_prefix [125%N] (skip_ws rest1) with
                  | Some r2 => Scanned (rev ((key, value) :: pairs)) r2
                  | None =>
                      match strip_prefix [44%N] (skip_ws rest1) with
                      | Some r2 => loop ((key, value) :: pairs) (skip_ws r2)
                      | None => Stop ExpectingComma (skip_ws rest1)
                      end
                  end
              | Stop msg at_ => Stop msg at_
              | OutOfFuel => OutOfFuel
              end
          | None => Stop ExpectingColon (skip_ws rest)
          end
      | Stop msg at_ => Stop msg at_
      | OutOfFuel => OutOfFuel
      end
  | None => Stop ExpectingPropertyName s
  end.

(** The scanner and its two loops call one another; each call uses up
    one unit of fuel. *)
Fixpoint scan_once (fuel : nat) (s : pystr) : scan pyval :=
  match fuel with
  | O => OutOfFuel
  | S fuel' =>
      scan_once_body (object_items fuel' []) (array_items fuel' []) s
  end
with array_items (fuel : nat) (values : list pyval) (s : pystr)
  : scan (list pyval) :=
  match fuel with
  | O => OutOfFuel
  | S fuel' => array_items_body (scan_once fuel') (array_items fuel') values s
  end
with object_items (fuel : nat) (pairs : list (pystr * pyval)) (s : pystr)
  : scan (list (pystr * pyval)) :=
  match fuel with
  | O => OutOfFuel
  | S fuel' => object_items_body (scan_once fuel') (object_items fuel') pairs s
  end.

(** Fuel that no document uses up (lemma [scan_fuel] below). *)
Definition fuel_for (s : pystr) : nat := 2 * length s + 2.

(** [JSONDecoder.decode] behind [json.loads]. *)
Definition loads (s : pystr) : result pyval :=
  if startswith s [65279%N] then
    Raise (Exception (JSONDecodeError UnexpectedBOM s 0))
  else
    match scan_once (fuel_for s) (skip_ws s) with
    | Scanned obj rest =>
        match skip_ws rest with
        | [] => Ok obj
        | extra => Raise (Exception (JSONDecodeError ExtraData s
                                       (length s - length extra)))
        end
    | Stop msg at_ =>
        Raise (Exception (JSONDecodeError msg s (length s - length at_)))
    | OutOfFuel => Raise (Exception RecursionError)
    end.

End Codec.

(** *** The encoder *)

Definition hex_char (n : N) : pychar := (if n <? 10 then 48 + n else 87 + n)%N.

(** [ESCAPE_DCT]: the text that stands for one character of a string. *)
Definition escape_char (c : pychar) : pystr :=
  (if c =? 34 then [92; 34]
   else if c =? 92 then [92; 92]
   else if c =? 10 then [92; 110]
   else if c =? 13 then [92; 114]
   else if c =? 9 then [92; 116]
   else if c =? 8 then [92; 98]
   else if c =? 12 then [92; 102]
   else if c <? 32 then [92; 117; 48; 48; hex_char (c / 16); hex_char (c mod 16)]
   else [c])%N.

(** [encode_basestring], used when [ensure_ascii] is false. *)
Definition encode_basestring (s : pystr) : pystr :=
  34%N :: flat_map escape_char s ++ [34%N].

(** [sep.join(parts)]. *)
Fixpoint join (sep : pystr) (parts : list pystr) : pystr :=
  match parts with
  | [] => []
  | [p] => p
  | p :: parts' => p ++ sep ++ join sep parts'
  end.

(** A newline and the indentation of a nesting level. *)
Definition newline_indent (indent level : nat) : pystr :=
  10%N :: repeat 32%N (indent * level).

Section Encoder.

Context {F : FloatText}.

(** [_iterencode] of [json.encoder] for an integer [indent], the chunks
    being joined: [item_separator] is a comma and [key_separator] a colon
    and a space. *)
Fixpoint iterencode (indent level : nat) (o : pyval) : pystr :=
  let items (l : list pyval) : pystr :=
    match l with
    | [] => pys "[]"
    | _ =>
        91%N :: newline_indent indent (S level)
        ++ join (44%N :: newline_indent indent (S level))
                (map (iterencode indent (S level)) l)
        ++ newline_indent indent level ++ [93%N]
    end in
  match o with
  | PStr s => encode_basestring s
  | PNone => pys "null"
  | PBool true => pys "true"
  | PBool false => pys "false"
  | PInt z => int_repr z
  | PFloat f => floatstr f
  | PList l => items l
  | PTuple l => items l
  | PDict d =>
      match d with
      | [] => pys "{}"
      | _ =>
          123%N :: newline_indent indent (S level)
          ++ join (44%N :: newline_indent indent (S level))
                  (map (fun kv : pystr * pyval =>
                          let (key, value) := kv in
                          encode_basestring key ++ [58%N; 32%N]
                          ++ iterencode indent (S level) value) d)
          ++ newline_indent indent level ++ [125%N]
      end
  end.

(** [json.dumps(obj, indent=indent, ensure_ascii=False)]. *)
Definition dumps (obj : pyval) (indent : nat) : pystr :=
  iterencode indent 0 obj.

End Encoder.

(** The fields [lineno] and [colno] of a [JSONDecodeError]. *)
Definition lineno (doc : pystr) (pos : nat) : nat :=
  count_occ N.eq_dec (firstn pos doc) 10%N + 1.

Definition colno (doc : pystr) (pos : nat) : nat :=
  let fix rfind_newline (s : pystr) : option nat :=
    match s with
    | [] => None
    | c :: s' =>
        match rfind_newline s' with
        | Some i => Some (S i)
        | None => if (c =? 10)%N then Some O else None
        end
    end in
  match rfind_newline (firstn pos doc) with
  | Some i => pos - i
  | None => pos + 1
  end.

End json.

(** ** src/json_handler.py *)

Module JSONHandler.

(** [JSONHandler.extract_json].  The result type follows the annotation
    [Optional[str]]: [None] stands for Python's [None]. *)
Definition extract_json (text : pystr) : option pystr :=
  let text := re.sub_json_fence text in
  let text := re.sub_fence text in
  match re.search_braces text with
  | Some json_match => Some json_match
  | None => Some (strip text)
  end.

(** The list [required_fields] of [validate_event_structure]. *)
Definition required_fields : list pystr :=
  [ pys "title"; pys "description"; pys "start_time"; pys "end_time";
    pys "venue"; pys "address"; pys "estimated_size"; pys "cost";
    pys "is_free"; pys "is_sold_out";
    pys "ticket_link"; pys "organizers"; pys "instagram_handles";
    pys "vibe_description" ].

(** How a stretch of a function body ends: by [return], or by reaching its
    last statement. *)
Inductive flow (A : Type) : Type :=
| Returned (a : A)
| Fell.
Arguments Returned {A} a.
Arguments Fell {A}.

Section WithFloats.

Context {F : FloatText}.

(** [JSONHandler.parse_json].  The function returns Python's [None] on
    failure, which is also the value of the JSON document [null]: both are
    [PNone]. *)
Definition parse_json (json_string : pystr) : io pyval :=
  try_except
    (data <- lift (match extract_json json_string with
                   | Some clean_json => json.loads clean_json
                   | None => Raise (Exception TypeError)
                   end) ;;
     ret data)%io
    (fun x =>
       match x with
       | Exception (JSONDecodeError msg doc pos as e) =>
           Some (print (JSONParsingError e) ;;
                 print (ErrorAtLineColumn (json.lineno doc pos) (json.colno doc pos)) ;;
                 ret PNone)%io
       | Exception e =>
           Some (print (UnexpectedParsingError e) ;;
                 ret PNone)%io
       | _ => None
       end).

(** The loop [for field in required_fields] for the event numbered
    [number]. *)
Fixpoint check_fields (number : nat) (event : pyval) (fields : list pystr)
  : io (flow bool) :=
  match fields with
  | [] => ret Fell
  | field :: rest =>
      (present <- lift (py_in field event) ;;
       if negb present then
         print (EventMissingField number field) ;;
         ret (Returned false)
       else check_fields number event rest)%io
  end.

(** The body of the loop over the events, for the event at index [i]. *)
Definition check_event (i : nat) (event : pyval) : io (flow bool) :=
  (fields <- check_fields (i + 1) event required_fields ;;
   match fields with
   | Returned r => ret (Returned r)
   | Fell =>
       handles <- lift (py_get event (pys "instagram_handles")) ;;
       if negb (is_list handles) then
         print (EventBadInstagramHandles (i + 1)) ;;
         ret (Returned false)
       else
         is_free <- lift (py_get event (pys "is_free")) ;;
         if negb (is_bool is_free) then
           print (EventBadIsFree (i + 1)) ;;
           ret (Returned false)
         else
           is_sold_out <- lift (py_get event (pys "is_sold_out")) ;;
           if negb (is_bool is_sold_out) then
             print (EventBadIsSoldOut (i + 1)) ;;
             ret (Returned false)
           else ret Fell
   end)%io.

(** [for i, event in enumerate(events)], from index [i] on. *)
Fixpoint check_events (i : nat) (events : list pyval) : io (flow bool) :=
  match events with
  | [] => ret Fell
  | event :: rest =>
      (r <- check_event i event ;;
       match r with
       | Returned b => ret (Returned b)
       | Fell => check_events (S i) rest
       end)%io
  end.

(** [JSONHandler.validate_event_structure]. *)
Definition validate_event_structure (data : pyval) : io bool :=
  try_except
    (has_events <- lift (py_in (pys "events") data) ;;
     if negb has_events then
       print MissingEventsKey ;;
       ret false
     else
       events <- lift (py_getitem data (pys "events")) ;;
       match events with
       | PList events =>
           r <- check_events 0 events ;;
           match r with
           | Returned b => ret b
           | Fell =>
               let event_count := length events in
               print (StructureValidated event_count) ;;
               (if (event_count <? 10)%nat then
                  print (FewerThanMax event_count) ;;
                  print ExpectedIfFew
                else if (event_count =? 10)%nat then
                  print MaximumFound
                else ret tt) ;;
               ret true
           end
       | _ =>
           print EventsNotAList ;;
           ret false
       end)%io
    (except_Exception (fun e => print (ValidationError e) ;; ret false)%io).

(** [JSONHandler.format_json]. *)
Definition format_json (data : pyval) (indent : nat) : pystr :=
  json.dumps data indent.

(** [JSONHandler.process_response]; [format_json] is called with its
    default indentation of 2. *)
Definition process_response (response_text : pystr) : io (option pystr) :=
  (data <- parse_json response_text ;;
   match data with
   | PNone =>
       print FailedToParse ;;
       ret None
   | _ =>
       valid <- validate_event_structure data ;;
       (if negb valid then print ValidationFailedWillDisplay else ret tt) ;;
       ret (Some (format_json data 2))
   end)%io.

End WithFloats.

End JSONHandler.

(** ** main.py *)

Module Main.

(** What a run depends on from outside the program: the key found in the
    environment, whether the clock lookup of [DateUtils.get_today_info]
    and the construction of the SDK client go through, and the remote
    service. *)
Record world : Type := World {
  OPENAI_API_KEY : pystr;
  get_today_info : option fault;
  OpenAI : option fault;
  responses : OpenAIClient.service
}.

(** A call to a collaborator that either goes through or fails. *)
Definition call (outcome : option fault) : io unit :=
  match outcome with
  | None => ret tt
  | Some f => raise (raised_of_fault f)
  end.

(** [sys.exit(code)]. *)
Definition sys_exit {A} (code : Z) : io A := raise (SystemExit code).

(** [response[:500] + "..." if len(response) > 500 else response]. *)
Definition shown (response : pystr) : pystr :=
  if (500 <? length response)%nat then firstn 500 response ++ pys "..."
  else response.

Section WithFloats.

Context {F : FloatText}.

(** The [try] block of [main]. *)
Definition main_body (w : world) : io unit :=
  (print Header ;;
   print ValidatingConfiguration ;;
   _ <- lift (Config.validate (OPENAI_API_KEY w)) ;;
   print ConfigurationValid ;;
   (* print_search_info *)
   call (get_today_info w) ;;
   print SearchInfo ;;
   print InitializingClient ;;
   call (OpenAI w) ;;
   print ClientInitialized ;;
   print SearchingSacramento ;;
   (* client.search_events, the prompt being built first *)
   call (get_today_info w) ;;
   response <- OpenAIClient.search_events Config.MAX_RETRIES (responses w) ;;
   match response with
   | None =>
       print FailedToRetrieve ;;
       print PossibleReasons ;;
       sys_exit 1
   | Some response =>
       print ProcessingResponse ;;
       formatted_json <- JSONHandler.process_response response ;;
       match formatted_json with
       | None =>
           print FailedToProcess ;;
           print (RawResponse (shown response)) ;;
           sys_exit 1
       | Some formatted_json =>
           print (Results formatted_json) ;;
           print SearchCompleted
       end
   end)%io.

(** [main]: the [try] block with its two [except] clauses.  [SystemExit]
    matches neither and leaves the function. *)
Definition main (w : world) : io unit :=
  try_except (main_body w)
    (fun x =>
       match x with
       | KeyboardInterrupt =>
           Some (print SearchCancelled ;; sys_exit 0)%io
       | Exception e =>
           Some (print (UnexpectedError e) ;;
                 emit PrintTraceback ;;
                 sys_exit 1)%io
       | SystemExit _ => None
       end).

(** The script: importing [src.config] validates the configuration before
    [main] is called. *)
Definition script (w : world) : io unit :=
  (_ <- lift (Config.validate (OPENAI_API_KEY w)) ;;
   main w)%io.

End WithFloats.

(** The exit status of the interpreter: 0 when the script runs to its
    end, the code of a [SystemExit], 1 for an exception nobody caught and
    130 for an interrupt nobody caught. *)
Definition exit_status (run : io unit) : Z :=
  match snd run with
  | Ok _ => 0
  | Raise (SystemExit code) => code
  | Raise (Exception _) => 1
  | Raise KeyboardInterrupt => 130
  end.

End Main.

(** ** Observations on a trace *)

Definition is_action (e : event) : bool :=
  match e with
  | ApiRequest _ | Sleep _ => true
  | _ => false
  end.

(** The requests and waits of a trace, in order, without the console
    lines. *)
Definition actions (t : list event) : list event := filter is_action t.

(** The attempt indices at which a request went out. *)
Fixpoint requests (t : list event) : list Z :=
  match t with
  | [] => []
  | ApiRequest i :: t' => i :: requests t'
  | _ :: t' => requests t'
  end.

(** The waits, in seconds. *)
Fixpoint sleeps (t : list event) : list Z :=
  match t with
  | [] => []
  | Sleep s :: t' => s :: sleeps t'
  | _ :: t' => sleeps t'
  end.

(** The console lines. *)
Fixpoint printed (t : list event) : list line :=
  match t with
  | [] => []
  | Print l :: t' => l :: printed t'
  | _ :: t' => printed t'
  end.

(** The schedule the specification gives for a service that keeps
    failing: a request at each attempt index below [max_retries], and a
    wait of [2 ^ attempt] after each one but the last. *)
Definition backoff_schedule (max_retries : Z) : list event :=
  flat_map (fun attempt =>
              ApiRequest attempt ::
              if (attempt <? max_retries - 1)%Z then [Sleep (2 ^ attempt)%Z]
              else [])
           (py_range max_retries).

(** An attempt that neither yields text nor is interrupted. *)
Definition fruitless (o : OpenAIClient.create_outcome) : bool :=
  match o with
  | OpenAIClient.Returns r =>
      match OpenAIClient.has_text r with Some _ => false | None => true end
  | OpenAIClient.Raises (Failed _) => true
  | OpenAIClient.Raises Interrupted => false
  end.

(** What the code does at one fruitless attempt: the request, and a wait
    only when the attempt raised and is not the last. *)
Definition fruitless_step (max_retries : Z) (svc : OpenAIClient.service)
  (attempt : Z) : list event :=
  ApiRequest attempt ::
  match svc attempt with
  | OpenAIClient.Raises _ =>
      if (attempt <? max_retries - 1)%Z then [Sleep (2 ^ attempt)%Z] else []
  | OpenAIClient.Returns _ => []
  end.

(** A service that answers every request with an empty text. *)
Definition silent_service : OpenAIClient.service :=
  fun _ => OpenAIClient.Returns (OpenAIClient.Response (Some [])).

(** A service that is unreachable at every request. *)
Definition unreachable_service : OpenAIClient.service :=
  fun _ => OpenAIClient.Raises (Failed (RuntimeError (pys "Connection error."))).

(** ** Positions in a string, for the statements about [extract_json] *)

Definition dquote : pychar := 34%N.

(** [s.find(c)]: the first position of [c] in [s]. *)
Fixpoint find (c : pychar) (s : pystr) : option nat :=
  match s with
  | [] => None
  | d :: s' =>
      if chr_eqb d c then Some O
      else match find c s' with Some i => Some (S i) | None => None end
  end.

(** [s.rfind(c)]: the last position of [c] in [s]. *)
Fixpoint rfind (c : pychar) (s : pystr) : option nat :=
  match s with
  | [] => None
  | d :: s' =>
      match rfind c s' with
      | Some i => Some (S i)
      | None => if chr_eqb d c then Some O else None
      end
  end.

(** [s[i:j]]. *)
Definition slice (s : pystr) (i j : nat) : pystr := firstn (j - i) (skipn i s).

(** The text [extract_json] works on once both fence patterns have been
    removed. *)
Definition without_fences (text : pystr) : pystr :=
  re.sub_fence (re.sub_json_fence text).

(** The span from the first opening brace through the last closing brace,
    when the closing one comes later. *)
Definition brace_span (t : pystr) : option pystr :=
  match find re.lbrace t, rfind re.rbrace t with
  | Some i, Some j => if (i <? j)%nat then Some (slice t i (S j)) else None
  | _, _ => None
  end.

(** The example of the specification:
    [prefix ```json {"a":1} ``` suffix]. *)
Definition fenced_example : pystr :=
  pys "prefix ```json {" ++ [dquote] ++ pys "a" ++ [dquote] ++ pys ":1} ``` suffix".

Definition fenced_example_json : pystr :=
  pys "{" ++ [dquote] ++ pys "a" ++ [dquote] ++ pys ":1}".

(** ** Floats kept as text

    An instance of [FloatText] for running the functions on documents: a
    float is the text that denotes it.  It says nothing of binary64
    rounding, and no statement below depends on it. *)
#[export] Instance literal_floats : FloatText := {
  pyfloat := pystr;
  float_of_str := fun text => text;
  floatstr := fun text => text
}.

(** ** The event schema, for the statements about validation *)

Section Schema.

Context {F : FloatText}.

(** An event as the specification describes it: a dictionary with every
    required field, where [instagram_handles] is a list and [is_free] and
    [is_sold_out] are booleans. *)
Definition well_shaped (event : pyval) : bool :=
  match event with
  | PDict d =>
      forallb (fun field => dict_has field d) JSONHandler.required_fields
      && match dict_get (pys "instagram_handles") d with
         | Some (PList _) => true
         | _ => false
         end
      && match dict_get (pys "is_free") d with
         | Some (PBool _) => true
         | _ => false
         end
      && match dict_get (pys "is_sold_out") d with
         | Some (PBool _) => true
         | _ => false
         end
  | _ => false
  end.

(** A parsed response [{"events": [...]}] with the given events. *)
Definition response_with (events : list pyval) : pyval :=
  PDict [(pys "search_date", PStr (pys "2024-01-15"));
         (pys "location", PStr (pys "Sacramento, California"));
         (pys "events", PList events)].

(** An event with every field in place. *)
Definition sample_event : pyval :=
  PDict [(pys "title", PStr (pys "Jazz Night"));
         (pys "description", PStr (pys "Live jazz downtown"));
         (pys "start_time", PStr (pys "6:00 PM PST"));
         (pys "end_time", PStr (pys "10:00 PM PST"));
         (pys "venue", PStr (pys "Harlow's"));
         (pys "address", PStr (pys "2708 J St, Sacramento, CA 95816"));
         (pys "estimated_size", PStr (pys "Medium (200-400)"));
         (pys "cost", PStr (pys "$25"));
         (pys "is_free", PBool false);
         (pys "is_sold_out", PBool false);
         (pys "ticket_link", PStr (pys "https://www.harlows.com/events/"));
         (pys "organizers", PStr (pys "Harlow's"));
         (pys "instagram_handles", PList [PStr (pys "@harlowsnightclub")]);
         (pys "vibe_description", PStr (pys "Warm and lively"))].

(** An event that lacks both [venue] and [address] (and nothing else). *)
Definition event_missing_two : pyval :=
  PDict [(pys "title", PStr (pys "x"));
         (pys "description", PStr (pys "x"));
         (pys "start_time", PStr (pys "x"));
         (pys "end_time", PStr (pys "x"));
         (pys "estimated_size", PStr (pys "x"));
         (pys "cost", PStr (pys "x"));
         (pys "is_free", PBool true);
         (pys "is_sold_out", PBool false);
         (pys "ticket_link", PStr (pys "x"));
         (pys "organizers", PStr (pys "x"));
         (pys "instagram_handles", PList []);
         (pys "vibe_description", PStr (pys "x"))].

(** The lines that report a violation of the shape. *)
Definition is_violation (l : line) : bool :=
  match l with
  | MissingEventsKey | EventsNotAList | EventMissingField _ _
  | EventBadInstagramHandles _ | EventBadIsFree _ | EventBadIsSoldOut _
  | ValidationError _ => true
  | _ => false
  end.

End Schema.

(** ** Kinds of runs, for the statement about exit codes *)

(** The outcomes the specification distinguishes. *)
Inductive run_kind : Type :=
| Success
| UserCancellation
| ConfigurationError
| SearchFailure
| ProcessingFailure
| UnexpectedFailure.


Section Runs.

Context {F : FloatText}.

(** What goes wrong, if anything, between the validation of the
    configuration and the search. *)
Definition setup_fault (w : Main.world) : option fault :=
  match Main.get_today_info w with
  | Some f => Some f
  | None => Main.OpenAI w
  end.

Definition kind_of_raised (x : raised) : run_kind :=
  match x with
  | KeyboardInterrupt => UserCancellation
  | _ => UnexpectedFailure
  end.

(** The kind of the run in a given world, read off what each stage does
    there: an invalid key is a configuration error; an interrupt at any
    stage is a cancellation and any other exception an unexpected
    failure; a search that returns [None] is a search failure; a response
    that [process_response] turns into [None] is a processing failure;
    anything else is a success. *)
Definition kind_of_run (w : Main.world) : run_kind :=
  match Config.validate (Main.OPENAI_API_KEY w) with
  | Raise _ => ConfigurationError
  | Ok _ =>
      match setup_fault w with
      | Some f => kind_of_raised (raised_of_fault f)
      | None =>
          match snd (OpenAIClient.search_events Config.MAX_RETRIES
                       (Main.responses w)) with
          | Raise x => kind_of_raised x
          | Ok None => SearchFailure
          | Ok (Some response) =>
              match snd (JSONHandler.process_response response) with
              | Raise x => kind_of_raised x
              | Ok None => ProcessingFailure
              | Ok (Some _) => Success
              end
          end
      end
  end.

End Runs.

(** A string between double quotes, for writing JSON documents. *)
Definition quoted (s : string) : pystr := dquote :: pys s ++ [dquote].


(** The document of scenario A, with no event. *)
Definition doc_no_events : pystr :=
  pys "{" ++ quoted "search_date" ++ pys ":" ++ quoted "2024-01-15" ++ pys ","
  ++ quoted "location" ++ pys ":" ++ quoted "Sacramento, California" ++ pys ","
  ++ quoted "events" ++ pys ":[]}".

(** A world where the key is valid, every collaborator answers and the
    service returns [text] at the first attempt. *)
Definition world_answering (text : pystr) : Main.world :=
  {| Main.OPENAI_API_KEY := pys "sk-test";
     Main.get_today_info := None;
     Main.OpenAI := None;
     Main.responses :=
       fun _ => OpenAIClient.Returns (OpenAIClient.Response (Some text)) |}.

(** ** Values that survive formatting, for the statement about the round trip *)


Section Shapes.

Context {F : FloatText}.




End Shapes.

(** ** Auxiliary notions of the proofs *)

(** A scan that, when it succeeds, ends further on than it started. *)
Definition shrinks {A} (f : pystr -> json.scan A) : Prop :=
  forall s a r, f s = json.Scanned a r -> length r < length s.

(** The lines [main] prints before the search starts. *)
Definition preamble : list event :=
  map Print [Header; ValidatingConfiguration; ConfigurationValid; SearchInfo;
             InitializingClient; ClientInitialized; SearchingSacramento].


Section ProofNotions.

Context {F : FloatText}.

(** The three ways a check can end: nothing to report, one violation
    reported and [False] returned, or an exception. *)
Inductive check_result : io (JSONHandler.flow bool) -> Prop :=
| check_passed : check_result ([], Ok JSONHandler.Fell)
| check_reported (l : line) :
    is_violation l = true ->
    check_result ([Print l], Ok (JSONHandler.Returned false))
| check_raised (e : exception) : check_result ([], Raise (Exception e)).



End ProofNotions.

(** A world where the key is valid, every collaborator answers and the
    service is unreachable. *)
Definition world_unreachable : Main.world :=
  {| Main.OPENAI_API_KEY := pys "sk-test";
     Main.get_today_info := None;
     Main.OpenAI := None;
     Main.responses := unreachable_service |}.

(** A world where the user interrupts the first request. *)
Definition world_interrupted : Main.world :=
  {| Main.OPENAI_API_KEY := pys "sk-test";
     Main.get_today_info := None;
     Main.OpenAI := None;
     Main.responses := fun _ => OpenAIClient.Raises Interrupted |}.

(** A world without a key. *)
Definition world_without_key : Main.world :=
  {| Main.OPENAI_API_KEY := [];
     Main.get_today_info := None;
     Main.OpenAI := None;
     Main.responses := silent_service |}.

(** ** Services for the examples of the retry loop *)

(** A service that fails at the first attempt, answers the second with an
    empty text and the third with [text]. *)
Definition recovering_service (text : pystr) : OpenAIClient.service :=
  fun attempt =>
    if (attempt =? 0)%Z then
      OpenAIClient.Raises (Failed (RuntimeError (pys "Connection error.")))
    else if (attempt =? 1)%Z then
      OpenAIClient.Returns (OpenAIClient.Response (Some []))
    else OpenAIClient.Returns (OpenAIClient.Response (Some text)).

(** A service that answers the first attempt with an empty text and fails
    at every later one. *)
Definition degrading_service : OpenAIClient.service :=
  fun attempt =>
    if (attempt =? 0)%Z then
      OpenAIClient.Returns (OpenAIClient.Response None)
    else OpenAIClient.Raises (Failed (RuntimeError (pys "Rate limit reached."))).

(** A service that fails at the first attempt and is interrupted from the
    keyboard during the second. *)
Definition interrupted_service : OpenAIClient.service :=
  fun attempt =>
    if (attempt =? 0)%Z then
      OpenAIClient.Raises (Failed (RuntimeError (pys "Connection error.")))
    else OpenAIClient.Raises Interrupted.

(** The waits the loop can make: [2 ^ attempt] for an attempt that is not
    the last. *)
Definition is_backoff (max_retries : Z) (seconds : Z) : Prop :=
  exists attempt, (0 <= attempt < max_retries - 1)%Z /\ seconds = (2 ^ attempt)%Z.

(** The attempts after which the loop waits: those that raised and are
    not the last. *)
Definition waits_after (max_retries : Z) (svc : OpenAIClient.service)
  (attempt : Z) : bool :=
  match svc attempt with
  | OpenAIClient.Raises _ => (attempt <? max_retries - 1)%Z
  | OpenAIClient.Returns _ => false
  end.

(** ** Subsequences, for the statements about what [extract_json] keeps *)

(** [subseq a b]: [a] is [b] with some of its elements deleted. *)
Inductive subseq {A : Type} : list A -> list A -> Prop :=
| subseq_nil : subseq [] []
| subseq_drop (x : A) (a b : list A) : subseq a b -> subseq a (x :: b)
| subseq_keep (x : A) (a b : list A) : subseq a b -> subseq (x :: a) (x :: b).

(** ** The values the decoder builds *)

Section DecoderValues.

Context {F : FloatText}.



End DecoderValues.

(** ** Events of a run, for the statements about [main] *)

(** The line that shows the results. *)
Definition is_results (e : event) : bool :=
  match e with
  | Print (Results _) => true
  | _ => false
  end.

(** A console line other than the one that shows the results. *)
Definition is_report (e : event) : bool :=
  match e with
  | Print (Results _) => false
  | Print _ => true
  | _ => false
  end.

(** ** Violations and the events they name *)

(** The number of the event a line about a violation names. *)
Definition blamed_event (l : line) : option nat :=
  match l with
  | EventMissingField number _ | EventBadInstagramHandles number
  | EventBadIsFree number | EventBadIsSoldOut number => Some number
  | _ => None
  end.

(** An event with every field in place, where [is_free] is a string. *)
Definition event_bad_is_free : pyval (F := literal_floats) :=
  match sample_event with
  | PDict items => PDict (dict_set (pys "is_free") (PStr (pys "yes")) items)
  | v => v
  end.

(** * Part II: lemmas and theorems *)

(** ** Traces *)

Lemma actions_app (t u : list event) : actions (t ++ u) = actions t ++ actions u.
Proof. apply filter_app. Qed.

Lemma requests_app (t u : list event) : requests (t ++ u) = requests t ++ requests u.
Proof.
  induction t as [|e t IH]; [reflexivity|].
  destruct e; simpl; rewrite IH; reflexivity.
Qed.

Lemma sleeps_app (t u : list event) : sleeps (t ++ u) = sleeps t ++ sleeps u.
Proof.
  induction t as [|e t IH]; [reflexivity|].
  destruct e; simpl; rewrite IH; reflexivity.
Qed.


Lemma requests_actions (t : list event) : requests (actions t) = requests t.
Proof.
  induction t as [|e t IH]; [reflexivity|].
  destruct e; simpl; rewrite ?IH; reflexivity.
Qed.

Lemma sleeps_actions (t : list event) : sleeps (actions t) = sleeps t.
Proof.
  induction t as [|e t IH]; [reflexivity|].
  destruct e; simpl; rewrite ?IH; reflexivity.
Qed.

Lemma requests_map_ApiRequest (l : list Z) : requests (map ApiRequest l) = l.
Proof. induction l as [|i l IH]; [reflexivity|]. cbn. rewrite IH. reflexivity. Qed.

Lemma sleeps_map_ApiRequest (l : list Z) : sleeps (map ApiRequest l) = [].
Proof. induction l as [|i l IH]; [reflexivity|]. exact IH. Qed.

(** ** The retry loop *)

Section RetryLoop.

Import OpenAIClient.

Variable max_retries : Z.
Variable svc : service.

(** One turn of the loop at a fruitless attempt that is not the last:
    the loop goes on. *)
Lemma fruitless_turn (attempt : Z) (rest : list Z) :
  fruitless (svc attempt) = true ->
  (attempt <? max_retries - 1)%Z = true \/ (exists r, svc attempt = Returns r) ->
  exists t,
    actions t = fruitless_step max_retries svc attempt /\
    attempts_loop max_retries svc (attempt :: rest) =
    (let (t', r) := attempts_loop max_retries svc rest in (t ++ t', r)).
Proof.
  intros Hf Hgo. unfold fruitless_step. simpl attempts_loop.
  unfold attempt_body, create, fruitless in *.
  destruct (svc attempt) as [r|[|e]] eqn:Hs; try discriminate.
  - destruct (has_text r) eqn:Ht; [discriminate|].
    simpl. rewrite Ht. simpl.
    destruct (attempts_loop max_retries svc rest) as [t' r'].
    exists [Print (SearchingForEvents attempt max_retries); ApiRequest attempt;
            Print (EmptyResponse attempt); Print ResponseRepr].
    split; reflexivity.
  - destruct Hgo as [Hlt|[r Hr]]; [|discriminate].
    simpl. unfold attempt_handler. rewrite Hlt. simpl.
    destruct (attempts_loop max_retries svc rest) as [t' r'].
    exists [Print (SearchingForEvents attempt max_retries); ApiRequest attempt;
            Print (ErrorOnAttempt attempt e); Print (RetryingIn (2 ^ attempt));
            Sleep (2 ^ attempt)].
    split; reflexivity.
Qed.

(** The last turn, when its attempt raises: the handler returns [None]. *)
Lemma raising_last_turn (attempt : Z) (e : exception) (rest : list Z) :
  svc attempt = Raises (Failed e) ->
  (attempt <? max_retries - 1)%Z = false ->
  exists t,
    actions t = [ApiRequest attempt] /\
    attempts_loop max_retries svc (attempt :: rest) = (t, Ok None).
Proof.
  intros Hs Hlt. simpl attempts_loop.
  unfold attempt_body, create. rewrite Hs. simpl.
  unfold attempt_handler. rewrite Hlt. simpl.
  eexists. split; [|reflexivity]. reflexivity.
Qed.

(** The loop over the indices [k, k+1, ..., k+m-1] that end at
    [max_retries - 1], all of them fruitless. *)
Lemma attempts_loop_fruitless (m k : nat) :
  Z.of_nat (k + m) = max_retries ->
  (forall i, (Z.of_nat k <= i < max_retries)%Z -> fruitless (svc i) = true) ->
  exists t,
    attempts_loop max_retries svc (map Z.of_nat (seq k m)) = (t, Ok None) /\
    actions t = flat_map (fruitless_step max_retries svc) (map Z.of_nat (seq k m)).
Proof.
  revert k. induction m as [|m IH]; intros k Hn Hall.
  - exists []. split; reflexivity.
  - cbn [seq map flat_map].
    assert (Hk : fruitless (svc (Z.of_nat k)) = true) by (apply Hall; lia).
    destruct (IH (S k)) as (t' & Hloop & Hact); [lia | intros; apply Hall; lia |].
    destruct (Z.of_nat k <? max_retries - 1)%Z eqn:Hlt.
    + destruct (@fruitless_turn (Z.of_nat k) (map Z.of_nat (seq (S k) m)) Hk)
        as (t & Ht & Heq); [left; exact Hlt|].
      rewrite Heq, Hloop. exists (t ++ t'). split; [reflexivity|].
      rewrite actions_app, Ht, Hact. reflexivity.
    + assert (m = 0%nat) by (apply Z.ltb_ge in Hlt; lia). subst m.
      destruct (svc (Z.of_nat k)) as [r|[|e]] eqn:Hs.
      * rewrite <- Hs in Hk.
        destruct (@fruitless_turn (Z.of_nat k) [] Hk) as (t & Ht & Heq);
          [right; eauto|].
        cbn [seq map]. rewrite Heq. cbn [attempts_loop ret].
        exists (t ++ []). split; [reflexivity|].
        rewrite actions_app, Ht. reflexivity.
      * discriminate.
      * destruct (@raising_last_turn (Z.of_nat k) e [] Hs Hlt) as (t & Ht & Heq).
        cbn [seq map]. rewrite Heq. exists t. split; [reflexivity|].
        rewrite Ht. unfold fruitless_step. rewrite Hs, Hlt. reflexivity.
Qed.

(** [search_events] against a service whose attempts are all fruitless. *)
Lemma search_events_fruitless :
  (forall i, (0 <= i < max_retries)%Z -> fruitless (svc i) = true) ->
  exists t,
    search_events max_retries svc = (t, Ok None) /\
    actions t = flat_map (fruitless_step max_retries svc) (py_range max_retries).
Proof.
  intros Hall. unfold search_events, py_range.
  destruct (Z.le_gt_cases 0 max_retries) as [Hpos|Hneg].
  - apply attempts_loop_fruitless; [lia | intros; apply Hall; lia].
  - replace (Z.to_nat max_retries) with 0%nat by lia.
    exists []. split; reflexivity.
Qed.

End RetryLoop.

(** The specification's schedule, read off request by request. *)
Lemma requests_backoff_schedule (n : Z) :
  requests (backoff_schedule n) = py_range n.
Proof.
  unfold backoff_schedule. induction (py_range n) as [|i l IH]; [reflexivity|].
  cbn [flat_map]. rewrite requests_app, IH.
  destruct (i <? n - 1)%Z; reflexivity.
Qed.

Lemma sleeps_schedule_seq (n : Z) (m k : nat) :
  Z.of_nat (k + m) = n ->
  sleeps (flat_map (fun attempt =>
                      ApiRequest attempt ::
                      if (attempt <? n - 1)%Z then [Sleep (2 ^ attempt)%Z] else [])
                   (map Z.of_nat (seq k m)))
  = map (Z.pow 2) (map Z.of_nat (seq k (m - 1))).
Proof.
  revert k. induction m as [|m IH]; intros k Hn; [reflexivity|].
  cbn [seq map flat_map]. rewrite sleeps_app, IH by lia.
  destruct (Z.of_nat k <? n - 1)%Z eqn:Hlt.
  - apply Z.ltb_lt in Hlt. destruct m as [|m]; [lia|].
    cbn [sleeps app]. replace (S (S m) - 1)%nat with (S m) by lia.
    replace (S m - 1)%nat with m by lia. reflexivity.
  - apply Z.ltb_ge in Hlt. assert (m = 0%nat) by lia. subst m. reflexivity.
Qed.

Lemma sleeps_backoff_schedule (n : Z) :
  sleeps (backoff_schedule n) = map (Z.pow 2) (py_range (n - 1)).
Proof.
  unfold backoff_schedule, py_range.
  destruct (Z.le_gt_cases 0 n) as [Hpos|Hneg].
  - rewrite (@sleeps_schedule_seq n (Z.to_nat n) 0) by lia.
    replace (Z.to_nat (n - 1)) with (Z.to_nat n - 1)%nat by lia. reflexivity.
  - replace (Z.to_nat n) with 0%nat by lia.
    replace (Z.to_nat (n - 1)) with 0%nat by lia. reflexivity.
Qed.

(** Text handed back by the loop came from a response and is not empty. *)
Lemma attempts_loop_content (n : Z) (svc : OpenAIClient.service)
  (l : list Z) (t : list event) (c : pystr) :
  OpenAIClient.attempts_loop n svc l = (t, Ok (Some c)) ->
  c <> [] /\
  exists i r, In i l /\ svc i = OpenAIClient.Returns r /\
              OpenAIClient.output_text r = Some c.
Proof.
  revert t. induction l as [|i l IH]; intros t H; [discriminate|].
  cbn [OpenAIClient.attempts_loop] in H.
  unfold OpenAIClient.attempt_body, OpenAIClient.create in H.
  destruct (svc i) as [r|[|e]] eqn:Hs.
  - unfold OpenAIClient.has_text in H.
    destruct r as [[[|c0 s]|]]; cbn in H.
    + destruct (OpenAIClient.attempts_loop n svc l) as [t' r'] eqn:Hl.
      injection H as _ Hr. subst r'.
      destruct (IH _ eq_refl) as (Hc & j & r & Hin & Hj & Ho).
      split; [exact Hc|]. exists j, r. auto with datatypes.
    + injection H as _ Hc. subst c. split; [discriminate|].
      exists i, {| OpenAIClient.output_text := Some (c0 :: s) |}.
      auto with datatypes.
    + destruct (OpenAIClient.attempts_loop n svc l) as [t' r'] eqn:Hl.
      injection H as _ Hr. subst r'.
      destruct (IH _ eq_refl) as (Hc & j & r & Hin & Hj & Ho).
      split; [exact Hc|]. exists j, r. auto with datatypes.
  - discriminate.
  - cbn in H. unfold OpenAIClient.attempt_handler in H.
    destruct (i <? n - 1)%Z; cbn in H; [|discriminate].
    destruct (OpenAIClient.attempts_loop n svc l) as [t' r'] eqn:Hl.
    injection H as _ Hr. subst r'.
    destruct (IH _ eq_refl) as (Hc & j & r & Hin & Hj & Ho).
    split; [exact Hc|]. exists j, r. auto with datatypes.
Qed.

(** C1.  When every attempt raises an error, [search_events] makes exactly
    [max_retries] requests, at the attempt indices [0 .. max_retries - 1];
    after each failed attempt but the last it waits [2 ^ attempt] seconds,
    so the waits are [2^0, 2^1, ..., 2^(max_retries - 2)], each between two
    consecutive requests; then it returns [None]. *)
Theorem search_events_retries_with_backoff
  (max_retries : Z) (svc : OpenAIClient.service) :
  (forall i, exists e, svc i = OpenAIClient.Raises (Failed e)) ->
  exists t,
    OpenAIClient.search_events max_retries svc = (t, Ok None) /\
    actions t = backoff_schedule max_retries /\
    requests t = py_range max_retries /\
    sleeps t = map (Z.pow 2) (py_range (max_retries - 1)).
Proof.
  intros Hall.
  destruct (@search_events_fruitless max_retries svc) as (t & Hrun & Hact).
  { intros i _. destruct (Hall i) as [e He]. unfold fruitless.
    rewrite He. reflexivity. }
  assert (Hsched : actions t = backoff_schedule max_retries).
  { rewrite Hact. unfold backoff_schedule. apply flat_map_ext. intros i.
    unfold fruitless_step. destruct (Hall i) as [e He]. rewrite He.
    reflexivity. }
  exists t. split; [exact Hrun|]. split; [exact Hsched|]. split.
  - rewrite <- requests_actions, Hsched. apply requests_backoff_schedule.
  - rewrite <- sleeps_actions, Hsched. apply sleeps_backoff_schedule.
Qed.

(** With the default of three attempts against an unreachable service:
    request, wait 1, request, wait 2, request. *)
Lemma search_events_retries_with_backoff_witness :
  (forall i, exists e, unreachable_service i = OpenAIClient.Raises (Failed e)) /\
  exists t,
    OpenAIClient.search_events Config.MAX_RETRIES unreachable_service
    = (t, Ok None) /\
    actions t = [ApiRequest 0; Sleep 1; ApiRequest 1; Sleep 2; ApiRequest 2]%Z /\
    requests t = [0; 1; 2]%Z /\
    sleeps t = [1; 2]%Z.
Proof.
  assert (H : forall i, exists e,
             unreachable_service i = OpenAIClient.Raises (Failed e))
    by (intros i; eexists; reflexivity).
  split; [exact H|].
  exact (@search_events_retries_with_backoff
           Config.MAX_RETRIES unreachable_service H).
Defined.

(** What the loop does with responses whose text is empty or missing.
    Such a response is never handed back as a success: text returned by
    [search_events] is not empty.  When every attempt gets such a
    response, each one uses up an attempt, the next request follows with
    no wait in between, and after [max_retries] requests the result is
    [None], as for transport errors. *)
Lemma empty_response_retried_without_wait
  (max_retries : Z) (svc : OpenAIClient.service) :
  (forall t c, OpenAIClient.search_events max_retries svc = (t, Ok (Some c)) ->
               c <> []) /\
  ((forall i, exists r, svc i = OpenAIClient.Returns r /\
                        OpenAIClient.has_text r = None) ->
   exists t,
     OpenAIClient.search_events max_retries svc = (t, Ok None) /\
     actions t = map ApiRequest (py_range max_retries) /\
     requests t = py_range max_retries /\
     sleeps t = []).
Proof.
  split.
  - intros t c H. apply (attempts_loop_content _ _ _ H).
  - intros Hall.
    destruct (@search_events_fruitless max_retries svc) as (t & Hrun & Hact).
    { intros i _. destruct (Hall i) as (r & Hr & Ht). unfold fruitless.
      rewrite Hr, Ht. reflexivity. }
    assert (Hreq : actions t = map ApiRequest (py_range max_retries)).
    { rewrite Hact. clear Hact Hrun.
      induction (py_range max_retries) as [|i l IH]; [reflexivity|].
      cbn [flat_map map]. rewrite IH. unfold fruitless_step.
      destruct (Hall i) as (r & Hr & _). rewrite Hr. reflexivity. }
    exists t. split; [exact Hrun|]. split; [exact Hreq|]. split.
    + rewrite <- requests_actions, Hreq. apply requests_map_ApiRequest.
    + rewrite <- sleeps_actions, Hreq. apply sleeps_map_ApiRequest.
Qed.


(** C2.  The code departs from the claim on the wait.  Against a service
    that answers the three attempts of the default configuration with an
    empty text, [search_events] returns [None] and never a success with
    empty content, as claimed; but the three requests follow one another
    with no wait at all, where the claim asks for the waits of 1 and 2
    seconds that the [except] clause makes after a transport error. *)
Theorem empty_response_not_backed_off :
  snd (OpenAIClient.search_events Config.MAX_RETRIES silent_service) = Ok None /\
  actions (fst (OpenAIClient.search_events Config.MAX_RETRIES silent_service))
  = [ApiRequest 0; ApiRequest 1; ApiRequest 2]%Z /\
  sleeps (fst (OpenAIClient.search_events Config.MAX_RETRIES silent_service))
  = [] /\
  sleeps (backoff_schedule Config.MAX_RETRIES) = [1; 2]%Z /\
  actions (fst (OpenAIClient.search_events Config.MAX_RETRIES silent_service))
  <> backoff_schedule Config.MAX_RETRIES.
Proof.
  split; [reflexivity|]. split; [reflexivity|]. split; [reflexivity|].
  split; [reflexivity|]. vm_compute. discriminate.
Qed.

(** ** [extract_json] *)

Lemma chr_eqb_eq (a b : pychar) : chr_eqb a b = true <-> a = b.
Proof. apply N.eqb_eq. Qed.

Lemma chr_eqb_refl (a : pychar) : chr_eqb a a = true.
Proof. apply N.eqb_refl. Qed.

(** [.*\}] at the start of [s] reaches the last closing brace. *)
Lemma upto_last_rfind (c : pychar) (s : pystr) :
  re.upto_last c s =
  match rfind c s with
  | Some j => Some (firstn (S j) s)
  | None => None
  end.
Proof.
  induction s as [|d s IH]; [reflexivity|].
  cbn [re.upto_last rfind]. rewrite IH.
  destruct (rfind c s) as [j|]; [reflexivity|].
  destruct (chr_eqb d c); reflexivity.
Qed.

Lemma search_braces_no_rbrace (s : pystr) :
  rfind re.rbrace s = None -> re.search_braces s = None.
Proof.
  induction s as [|c s IH]; [reflexivity|].
  cbn [rfind re.search_braces]. intros H.
  destruct (rfind re.rbrace s) as [j|] eqn:Hr; [discriminate|].
  rewrite upto_last_rfind, Hr, (IH eq_refl).
  destruct (chr_eqb c re.lbrace); reflexivity.
Qed.

(** The match of [\{.*\}] is the span from the first opening brace through
    the last closing brace, and there is one exactly when the last closing
    brace comes after the first opening brace. *)
Lemma search_braces_span (t : pystr) : re.search_braces t = brace_span t.
Proof.
  unfold brace_span. induction t as [|c t IH]; [reflexivity|].
  cbn [re.search_braces find rfind].
  destruct (chr_eqb c re.lbrace) eqn:Hl.
  - apply chr_eqb_eq in Hl. subst c.
    rewrite upto_last_rfind.
    destruct (rfind re.rbrace t) as [j|] eqn:Hr.
    + reflexivity.
    + cbn. apply search_braces_no_rbrace. exact Hr.
  - rewrite IH.
    destruct (find re.lbrace t) as [i|]; [|reflexivity].
    destruct (rfind re.rbrace t) as [j|].
    + reflexivity.
    + destruct (chr_eqb c re.rbrace); reflexivity.
Qed.

(** Dropping the rest of a match is resuming the scan after it. *)
Lemma remove_matches_skip (m : pystr -> option nat) (k : nat) (s : pystr) :
  re.remove_matches m k s = re.remove_matches m 0 (skipn k s).
Proof.
  revert k. induction s as [|c s IH]; intros k.
  - destruct k; reflexivity.
  - destruct k as [|k]; [reflexivity|].
    cbn [re.remove_matches skipn]. apply IH.
Qed.

Lemma skipn_spaces (s : pystr) : skipn (re.spaces s) s = lstrip s.
Proof.
  induction s as [|c s IH]; [reflexivity|].
  cbn [re.spaces lstrip]. destruct (isspace c); [exact IH | reflexivity].
Qed.

Lemma length_lstrip (s : pystr) : length (lstrip s) <= length s.
Proof.
  induction s as [|c s IH]; [apply le_n|].
  cbn [lstrip]. destruct (isspace c); cbn [length]; lia.
Qed.

(** The two equations of [re.sub(r'```\s*', '', s)]. *)
Lemma sub_fence_match (r : pystr) :
  re.sub_fence (re.backtick :: re.backtick :: re.backtick :: r)
  = re.sub_fence (lstrip r).
Proof.
  unfold re.sub_fence. change (pys "```") with [96; 96; 96]%N.
  cbn [re.remove_matches].
  unfold re.match_marker. cbn -[re.remove_matches re.spaces].
  rewrite remove_matches_skip. cbn [skipn].
  rewrite skipn_spaces. reflexivity.
Qed.

Lemma sub_fence_keep (c : pychar) (s : pystr) :
  startswith (c :: s) (pys "```") = false ->
  re.sub_fence (c :: s) = c :: re.sub_fence s.
Proof.
  unfold re.sub_fence, startswith. cbn [re.remove_matches].
  unfold re.match_marker.
  destruct (strip_prefix (pys "```") (c :: s)); [discriminate | reflexivity].
Qed.

Lemma startswith_fence (s : pystr) :
  startswith s (pys "```") = true ->
  exists r, s = re.backtick :: re.backtick :: re.backtick :: r.
Proof.
  unfold startswith. change (pys "```") with [96; 96; 96]%N.
  destruct s as [|a [|b [|c r]]]; cbn [strip_prefix].
  - discriminate.
  - destruct (chr_eqb 96%N a); discriminate.
  - destruct (chr_eqb 96%N a); [|discriminate].
    destruct (chr_eqb 96%N b); discriminate.
  - destruct (chr_eqb 96%N a) eqn:Ha; [|discriminate].
    destruct (chr_eqb 96%N b) eqn:Hb; [|discriminate].
    destruct (chr_eqb 96%N c) eqn:Hc; [|discriminate].
    intros _. apply chr_eqb_eq in Ha, Hb, Hc. subst. exists r. reflexivity.
Qed.

Lemma startswith_nil (s : pystr) : startswith s [] = true.
Proof. reflexivity. Qed.

Lemma startswith_cons (a b : pychar) (s p : pystr) :
  startswith (a :: s) (b :: p) = chr_eqb b a && startswith s p.
Proof.
  unfold startswith. cbn [strip_prefix]. destruct (chr_eqb b a); reflexivity.
Qed.

Lemma startswith_empty (b : pychar) (p : pystr) : startswith [] (b :: p) = false.
Proof. reflexivity. Qed.

(** Where the text does not start with one, two or three backticks, the
    text left by the substitution does not either. *)
Lemma sub_fence_head1 (s : pystr) :
  startswith s [re.backtick] = false ->
  startswith (re.sub_fence s) [re.backtick] = false.
Proof.
  destruct s as [|a s]; [reflexivity|]. intros H.
  rewrite sub_fence_keep.
  - rewrite startswith_cons in *. exact H.
  - change (pys "```") with [re.backtick; re.backtick; re.backtick].
    rewrite startswith_cons in *. rewrite startswith_nil, andb_true_r in H.
    rewrite H. reflexivity.
Qed.

Lemma sub_fence_head2 (s : pystr) :
  startswith s [re.backtick; re.backtick] = false ->
  startswith (re.sub_fence s) [re.backtick; re.backtick] = false.
Proof.
  destruct s as [|a s]; [reflexivity|]. intros H.
  rewrite sub_fence_keep.
  - rewrite startswith_cons in *.
    destruct (chr_eqb re.backtick a); [|reflexivity].
    cbn [andb] in *. apply sub_fence_head1. exact H.
  - change (pys "```") with [re.backtick; re.backtick; re.backtick].
    rewrite startswith_cons in *.
    destruct (chr_eqb re.backtick a); [|reflexivity].
    cbn [andb] in *. destruct s as [|b s]; [reflexivity|].
    rewrite startswith_cons in *. rewrite startswith_nil, andb_true_r in H.
    rewrite H. reflexivity.
Qed.

Lemma sub_fence_head3 (s : pystr) :
  startswith s (pys "```") = false ->
  startswith (re.sub_fence s) (pys "```") = false.
Proof.
  destruct s as [|a s]; [reflexivity|]. intros H.
  rewrite (sub_fence_keep _ _ H).
  change (pys "```") with [re.backtick; re.backtick; re.backtick] in *.
  rewrite startswith_cons in *.
  destruct (chr_eqb re.backtick a); [|reflexivity].
  cbn [andb] in *. apply sub_fence_head2. exact H.
Qed.

(** No fence marker is left once [re.sub(r'```\s*', '', s)] has run. *)
Lemma sub_fence_no_fence_upto (n : nat) (s : pystr) :
  length s <= n -> str_contains (pys "```") (re.sub_fence s) = false.
Proof.
  revert s. induction n as [|n IH]; intros s Hlen.
  - destruct s; [reflexivity | cbn in Hlen; lia].
  - destruct s as [|c s]; [reflexivity|].
    destruct (startswith (c :: s) (pys "```")) eqn:Hm.
    + destruct (startswith_fence _ Hm) as [r Hr]. rewrite Hr, sub_fence_match.
      apply IH. pose proof (length_lstrip r) as Hl.
      rewrite Hr in Hlen. cbn [length] in Hlen. lia.
    + pose proof (sub_fence_head3 _ Hm) as Hh.
      rewrite (sub_fence_keep _ _ Hm) in *.
      cbn [str_contains]. rewrite Hh. cbn [orb].
      apply IH. cbn [length] in Hlen. lia.
Qed.

Lemma without_fences_no_fence (text : pystr) :
  str_contains (pys "```") (without_fences text) = false.
Proof. apply (@sub_fence_no_fence_upto (length (re.sub_json_fence text))), le_n. Qed.

Lemma extract_json_is_some (text : pystr) :
  JSONHandler.extract_json text <> None /\
  exists s, JSONHandler.extract_json text = Some s.
Proof.
  unfold JSONHandler.extract_json.
  destruct (re.search_braces (re.sub_fence (re.sub_json_fence text)));
    (split; [discriminate | eexists; reflexivity]).
Qed.

(** C5 as stated fails on its last clause: without a brace span the result
    is the trimmed text with the fence markers already removed, not the
    trimmed original text. *)
Lemma extract_json_fallback_is_not_original :
  brace_span (without_fences (pys "```json hello")) = None /\
  JSONHandler.extract_json (pys "```json hello") = Some (pys "hello") /\
  JSONHandler.extract_json (pys "```json hello")
  <> Some (strip (pys "```json hello")).
Proof.
  split; [reflexivity|]. split; [reflexivity|]. vm_compute. discriminate.
Qed.

(** C5, amended.  [extract_json] first removes the code-fence markers, the
    ones tagged [json] and the bare ones, so that no marker is left in the
    text it goes on with.  If that text has an opening brace with a
    closing brace after it, the result is the span from the first opening
    brace through the last closing brace; otherwise it is that same
    fence-free text, trimmed.  On the specification's example the result
    is the JSON object alone. *)
Theorem extract_json_span (text : pystr) :
  let t := without_fences text in
  str_contains (pys "```") t = false /\
  JSONHandler.extract_json text =
    match find re.lbrace t, rfind re.rbrace t with
    | Some i, Some j =>
        if (i <? j)%nat then Some (slice t i (S j)) else Some (strip t)
    | _, _ => Some (strip t)
    end /\
  JSONHandler.extract_json fenced_example = Some fenced_example_json.
Proof.
  intros t. split; [apply without_fences_no_fence|]. split; [|reflexivity].
  unfold JSONHandler.extract_json. fold (without_fences text). fold t.
  rewrite search_braces_span. unfold brace_span.
  destruct (find re.lbrace t) as [i|]; [|reflexivity].
  destruct (rfind re.rbrace t) as [j|]; [|reflexivity].
  destruct (i <? j)%nat; reflexivity.
Qed.

(** C9.  [extract_json] never returns [None]: it returns the brace span
    when there is one and otherwise falls back to the trimmed fence-free
    text, so the parse step is always handed a string. *)
Theorem extract_json_never_none (text : pystr) :
  JSONHandler.extract_json text <> None /\
  exists s,
    JSONHandler.extract_json text = Some s /\
    match brace_span (without_fences text) with
    | Some span => s = span
    | None => s = strip (without_fences text)
    end.
Proof.
  unfold JSONHandler.extract_json. fold (without_fences text).
  rewrite search_braces_span.
  destruct (brace_span (without_fences text)) as [span|].
  - split; [discriminate|]. exists span. split; reflexivity.
  - split; [discriminate|]. eexists. split; reflexivity.
Qed.

(** ** Shape validation *)

Section Validation.

Context {F : FloatText}.

Import JSONHandler.

#[local] Arguments Nat.ltb : simpl never.
#[local] Arguments Nat.eqb : simpl never.

Lemma dict_get_has (key : pystr) (d : list (pystr * pyval)) (v : pyval) :
  dict_get key d = Some v -> dict_has key d = true.
Proof.
  induction d as [|[k w] d IH]; [discriminate|].
  cbn [dict_get dict_has]. destruct (str_eqb key k); [reflexivity|].
  exact IH.
Qed.


Lemma py_in_result (key : pystr) (v : pyval) :
  (exists b, py_in key v = Ok b) \/ py_in key v = Raise (Exception TypeError).
Proof. destruct v; cbn; eauto. Qed.

Lemma py_get_result (v : pyval) (key : pystr) :
  (exists w, py_get v key = Ok w) \/ py_get v key = Raise (Exception AttributeError).
Proof.
  destruct v; cbn; eauto.
  destruct (dict_get key items); eauto.
Qed.

Lemma check_fields_result (number : nat) (event : pyval) (fields : list pystr) :
  check_result (check_fields number event fields).
Proof.
  induction fields as [|field rest IH]; [constructor|].
  cbn [check_fields]. unfold bind, lift.
  destruct (py_in_result field event) as [[b Hb]|Hb]; rewrite Hb.
  - destruct b; cbn.
    + destruct (check_fields number event rest) as [t r]. exact IH.
    + apply check_reported. reflexivity.
  - constructor.
Qed.

Lemma check_event_result (i : nat) (event : pyval) :
  check_result (check_event i event).
Proof.
  unfold check_event.
  destruct (check_fields_result (i + 1) event required_fields) as [|l Hl|e];
    cbn; try (constructor; assumption).
  destruct (py_get_result event (pys "instagram_handles")) as [[h Hh]|Hh];
    rewrite Hh; cbn; [|constructor].
  destruct (is_list h); cbn; [|apply check_reported; reflexivity].
  destruct (py_get_result event (pys "is_free")) as [[f Hf]|Hf];
    rewrite Hf; cbn; [|constructor].
  destruct (is_bool f); cbn; [|apply check_reported; reflexivity].
  destruct (py_get_result event (pys "is_sold_out")) as [[s Hs]|Hs];
    rewrite Hs; cbn; [|constructor].
  destruct (is_bool s); cbn; [|apply check_reported; reflexivity].
  constructor.
Qed.

Lemma check_events_result (i : nat) (events : list pyval) :
  check_result (check_events i events).
Proof.
  revert i. induction events as [|event rest IH]; intros i; [constructor|].
  cbn [check_events].
  destruct (check_event_result i event) as [|l Hl|e]; cbn;
    try (constructor; assumption).
  destruct (check_events (S i) rest) as [t r] eqn:Hrest.
  specialize (IH (S i)). rewrite Hrest in IH. exact IH.
Qed.

(** A well-shaped event passes every check. *)
Lemma check_fields_present (number : nat) (d : list (pystr * pyval))
  (fields : list pystr) :
  forallb (fun field => dict_has field d) fields = true ->
  check_fields number (PDict d) fields = ([], Ok Fell).
Proof.
  induction fields as [|field rest IH]; [reflexivity|].
  cbn [forallb check_fields]. intros H. apply andb_prop in H as [Hf Hr].
  cbn. rewrite Hf. cbn. rewrite (IH Hr). reflexivity.
Qed.

Lemma check_event_well_shaped (i : nat) (event : pyval) :
  well_shaped event = true -> check_event i event = ([], Ok Fell).
Proof.
  destruct event as [| | | | | | |d]; try discriminate.
  unfold well_shaped. intros H.
  apply andb_prop in H as [H Hs]. apply andb_prop in H as [H Hf].
  apply andb_prop in H as [H Hh].
  unfold check_event. rewrite (check_fields_present _ _ _ H). cbn.
  destruct (dict_get (pys "instagram_handles") d) as [[]|]; try discriminate.
  destruct (dict_get (pys "is_free") d) as [[]|]; try discriminate.
  destruct (dict_get (pys "is_sold_out") d) as [[]|]; try discriminate.
  reflexivity.
Qed.

Lemma check_events_well_shaped (i : nat) (events : list pyval) :
  forallb well_shaped events = true -> check_events i events = ([], Ok Fell).
Proof.
  revert i. induction events as [|event rest IH]; intros i H; [reflexivity|].
  cbn [forallb] in H. apply andb_prop in H as [He Hr].
  cbn [check_events]. rewrite (check_event_well_shaped _ _ He). cbn.
  rewrite (IH _ Hr). reflexivity.
Qed.

(** The first missing field of an event is reported, and the loop over
    the fields ends there. *)
Lemma check_fields_first_missing (number : nat) (d : list (pystr * pyval))
  (present : list pystr) (field : pystr) (later : list pystr) :
  forallb (fun f => dict_has f d) present = true ->
  dict_has field d = false ->
  check_fields number (PDict d) (present ++ field :: later)
  = ([Print (EventMissingField number field)], Ok (Returned false)).
Proof.
  induction present as [|p present IH]; intros Hp Hf.
  - cbn. rewrite Hf. reflexivity.
  - cbn [forallb] in Hp. apply andb_prop in Hp as [Hp1 Hp2].
    cbn. rewrite Hp1. cbn. rewrite (IH Hp2 Hf). reflexivity.
Qed.

(** The events before the first offending one leave no trace, and the
    loop over the events ends at the first one that returns. *)
Lemma check_events_first_bad (i : nat) (good : list pyval) (bad : pyval)
  (rest : list pyval) (t : list event) (b : bool) :
  forallb well_shaped good = true ->
  check_event (i + length good) bad = (t, Ok (Returned b)) ->
  check_events i (good ++ bad :: rest) = (t, Ok (Returned b)).
Proof.
  revert i. induction good as [|g good IH]; intros i Hg Hb.
  - cbn [app check_events]. cbn [length] in Hb. rewrite Nat.add_0_r in Hb.
    rewrite Hb. cbn. rewrite List.app_nil_r. reflexivity.
  - cbn [forallb] in Hg. apply andb_prop in Hg as [Hg1 Hg2].
    cbn [app check_events]. rewrite (check_event_well_shaped _ _ Hg1). cbn.
    rewrite (IH (S i) Hg2); [reflexivity|].
    cbn [length] in Hb. rewrite <- Hb. f_equal. lia.
Qed.

(** [validate_event_structure] always returns, and when it returns
    [False] it has printed exactly one line, the violation it stopped
    at. *)
Lemma validate_one_report (data : pyval) :
  exists t b,
    validate_event_structure data = (t, Ok b) /\
    (b = false -> exists l, t = [Print l] /\ is_violation l = true).
Proof.
  unfold validate_event_structure.
  destruct (py_in_result (pys "events") data) as [[has Hhas]|Hhas];
    rewrite Hhas; cbn.
  2:{ eexists _, false. split; [reflexivity|]. intros _. eexists. split; reflexivity. }
  destruct has; cbn.
  2:{ eexists _, false. split; [reflexivity|]. intros _. eexists. split; reflexivity. }
  destruct data as [| | | | | | |d]; cbn;
    try (eexists _, false; split; [reflexivity|]; intros _; eexists;
         split; reflexivity).
  destruct (dict_get (pys "events") d) as [events|]; cbn.
  2:{ eexists _, false. split; [reflexivity|]. intros _. eexists. split; reflexivity. }
  destruct events as [| | | | |events| |]; cbn;
    try (eexists _, false; split; [reflexivity|]; intros _; eexists;
         split; reflexivity).
  destruct (check_events_result 0 events) as [|l Hl|e]; cbn.
  - destruct (length events <? 10)%nat; cbn.
    + eexists _, true. split; [reflexivity|]. discriminate.
    + destruct (length events =? 10)%nat; cbn;
        (eexists _, true; split; [reflexivity|]; discriminate).
  - eexists _, false. split; [reflexivity|]. intros _. exists l. split; auto.
  - eexists _, false. split; [reflexivity|]. intros _. eexists.
    split; reflexivity.
Qed.

(** C8.  The validator does not enforce the maximum number of events:
    when every event of the list is well shaped, it returns [True]
    whatever the length of the list, zero and more than [MAX_EVENTS]
    included.  The count only shows in what is printed: the line that
    announces the validated structure, followed by a note when there are
    fewer than ten events or exactly ten. *)
Theorem validate_does_not_enforce_count
  (d : list (pystr * pyval)) (events : list pyval) :
  dict_get (pys "events") d = Some (PList events) ->
  forallb well_shaped events = true ->
  validate_event_structure (PDict d) =
    (map Print
       (StructureValidated (length events) ::
        if (length events <? 10)%nat
        then [FewerThanMax (length events); ExpectedIfFew]
        else if (length events =? 10)%nat then [MaximumFound] else []),
     Ok true).
Proof.
  intros Hget Hall. unfold validate_event_structure. cbn.
  rewrite (dict_get_has _ _ Hget). cbn. rewrite Hget. cbn.
  rewrite (check_events_well_shaped 0 _ Hall). cbn.
  destruct (length events <? 10)%nat; [reflexivity|].
  destruct (length events =? 10)%nat; reflexivity.
Qed.

(** C4, amended.  Shape validation stops at the first violation it
    meets.  It always returns, and whenever it returns [False] it has
    printed exactly one line.  In particular, when the events before some
    event are well shaped and that event is a dictionary lacking a
    required field, all the fields listed before that one being present,
    the only line printed names that event and that field: later fields
    of the event and later events are not looked at. *)
Theorem validate_reports_first_violation_only :
  (forall data : pyval,
     exists t b,
       validate_event_structure data = (t, Ok b) /\
       (b = false -> exists l, t = [Print l] /\ is_violation l = true)) /\
  (forall (d : list (pystr * pyval)) (good : list pyval)
          (e : list (pystr * pyval)) (rest : list pyval)
          (present : list pystr) (field : pystr) (later : list pystr),
     dict_get (pys "events") d = Some (PList (good ++ PDict e :: rest)) ->
     forallb well_shaped good = true ->
     required_fields = present ++ field :: later ->
     forallb (fun f => dict_has f e) present = true ->
     dict_has field e = false ->
     validate_event_structure (PDict d) =
       ([Print (EventMissingField (length good + 1) field)], Ok false)).
Proof.
  split; [exact validate_one_report|].
  intros d good e rest present field later Hget Hgood Hreq Hpresent Hfield.
  unfold validate_event_structure. cbn.
  rewrite (dict_get_has _ _ Hget). cbn. rewrite Hget. cbn.
  rewrite (@check_events_first_bad 0 good (PDict e) rest
             [Print (EventMissingField (length good + 1) field)] false Hgood).
  - reflexivity.
  - unfold check_event. rewrite Hreq.
    rewrite (check_fields_first_missing _ _ _ _ _ Hpresent Hfield).
    reflexivity.
Qed.

End Validation.

(** The items of [event_missing_two]. *)
Lemma event_missing_two_items :
  exists e, event_missing_two = PDict e /\
            forallb (fun f => dict_has f e)
                    [pys "title"; pys "description"; pys "start_time";
                     pys "end_time"] = true /\
            dict_has (pys "venue") e = false /\
            dict_has (pys "address") e = false.
Proof. eexists. split; [reflexivity|]. repeat split; reflexivity. Qed.

(** C4 as stated fails: of two events that each lack [venue] and
    [address], only the first missing field of the first event is
    reported. *)
Lemma validate_misses_later_violations :
  let run := JSONHandler.validate_event_structure
               (response_with [event_missing_two; event_missing_two]) in
  py_in (pys "address") event_missing_two = Ok false /\
  snd run = Ok false /\
  printed (fst run) = [EventMissingField 1 (pys "venue")] /\
  ~ In (EventMissingField 1 (pys "address")) (printed (fst run)) /\
  ~ In (EventMissingField 2 (pys "venue")) (printed (fst run)) /\
  ~ In (EventMissingField 2 (pys "address")) (printed (fst run)).
Proof.
  cbv zeta. split; [reflexivity|]. split; [reflexivity|].
  assert (H : printed (fst (JSONHandler.validate_event_structure
                              (response_with [event_missing_two; event_missing_two])))
              = [EventMissingField 1 (pys "venue")]) by reflexivity.
  split; [exact H|]. rewrite H.
  repeat split; intros [Heq|[]]; revert Heq; vm_compute; discriminate.
Qed.

Lemma validate_reports_first_violation_only_witness :
  JSONHandler.validate_event_structure
    (response_with [sample_event; event_missing_two; event_missing_two])
  = ([Print (EventMissingField 2 (pys "venue"))], Ok false).
Proof.
  destruct event_missing_two_items as (e & He & Hpresent & Hvenue & _).
  rewrite He.
  refine (proj2 validate_reports_first_violation_only _ [sample_event] e
            [PDict e] [pys "title"; pys "description"; pys "start_time";
                       pys "end_time"]
            (pys "venue") _ _ _ _ Hpresent Hvenue); reflexivity.
Defined.

Lemma validate_does_not_enforce_count_witness :
  (Config.MAX_EVENTS < Z.of_nat (length (repeat sample_event 11)))%Z /\
  JSONHandler.validate_event_structure (response_with (repeat sample_event 11))
  = ([Print (StructureValidated 11)], Ok true) /\
  JSONHandler.validate_event_structure (response_with [])
  = ([Print (StructureValidated 0); Print (FewerThanMax 0); Print ExpectedIfFew],
     Ok true).
Proof.
  split; [reflexivity|]. split.
  - refine (@validate_does_not_enforce_count _ _ (repeat sample_event 11) _ _);
      reflexivity.
  - refine (@validate_does_not_enforce_count _ _ [] _ _); reflexivity.
Defined.

(** ** The decoder: what it consumes and the fuel it needs *)

Ltac break_match_in H :=
  match type of H with
  | context [match ?x with _ => _ end] => destruct x eqn:?
  end.

Ltac break_match :=
  match goal with
  | |- context [match ?x with _ => _ end] => destruct x eqn:?
  end.

Lemma strip_prefix_app (p s r : pystr) :
  strip_prefix p s = Some r -> s = p ++ r.
Proof.
  revert s. induction p as [|c p IH]; intros s H.
  - injection H as ->. reflexivity.
  - destruct s as [|d s]; [discriminate|]. cbn [strip_prefix] in H.
    destruct (chr_eqb c d) eqn:Hc; [|discriminate].
    apply chr_eqb_eq in Hc. subst d. cbn. f_equal. apply IH. exact H.
Qed.

Lemma strip_prefix_length (p s r : pystr) :
  strip_prefix p s = Some r -> length s = length p + length r.
Proof. intros H. rewrite (strip_prefix_app _ _ H). apply length_app. Qed.

Lemma strip_prefix_of_app (p r : pystr) : strip_prefix p (p ++ r) = Some r.
Proof.
  induction p as [|c p IH]; [reflexivity|].
  cbn. rewrite chr_eqb_refl. exact IH.
Qed.

Lemma skip_ws_length (s : pystr) : length (json.skip_ws s) <= length s.
Proof.
  induction s as [|c s IH]; [apply le_n|].
  cbn [json.skip_ws]. destruct (json.is_ws c); cbn [length]; lia.
Qed.

Lemma span_digits_app (s ds r : pystr) :
  json.span_digits s = (ds, r) -> s = ds ++ r.
Proof.
  revert ds r. induction s as [|c s IH]; intros ds r H.
  - injection H as <- <-. reflexivity.
  - cbn [json.span_digits] in H. destruct (json.is_digit c).
    + destruct (json.span_digits s) as [ds' r'].
      injection H as <- <-. cbn. f_equal. apply IH. reflexivity.
    + injection H as <- <-. reflexivity.
Qed.

Lemma span_digits_length (s ds r : pystr) :
  json.span_digits s = (ds, r) -> length s = length ds + length r.
Proof. intros H. rewrite (span_digits_app _ H). apply length_app. Qed.

(** [scanstring] ends after the closing quote, further on than it
    started, and needs no fuel. *)
Lemma scanstring_shrinks (s q : pystr) (skip : nat) (acc str rest : pystr) :
  json.scanstring q skip acc s = json.Scanned str rest ->
  length rest < length s.
Proof.
  revert skip acc. induction s as [|c s IH]; intros skip acc H; [discriminate|].
  cbn [json.scanstring] in H. destruct skip as [|k].
  - destruct (c =? 34)%N.
    + injection H as _ <-. cbn. lia.
    + destruct (c =? 92)%N.
      * destruct (json.decode_escape (c :: s) s); try discriminate.
        apply IH in H. cbn. lia.
      * destruct (c <? 32)%N; [discriminate|]. apply IH in H. cbn. lia.
  - apply IH in H. cbn. lia.
Qed.

Lemma scanstring_fuel (s q : pystr) (skip : nat) (acc : pystr) :
  json.scanstring q skip acc s <> json.OutOfFuel.
Proof.
  revert skip acc. induction s as [|c s IH]; intros skip acc; [discriminate|].
  cbn [json.scanstring]. destruct skip as [|k]; [|apply IH].
  destruct (c =? 34)%N; [discriminate|].
  destruct (c =? 92)%N.
  - destruct (json.decode_escape (c :: s) s); try discriminate. apply IH.
  - destruct (c <? 32)%N; [discriminate | apply IH].
Qed.

Lemma match_digits_length (s ds r : pystr) :
  json.match_digits s = Some (ds, r) ->
  length s = length ds + length r /\ 0 < length ds.
Proof.
  destruct s as [|c s]; [discriminate|]. cbn [json.match_digits].
  destruct (c =? 48)%N.
  - intros H. injection H as <- <-. cbn. lia.
  - destruct (json.is_digit c); [|discriminate].
    destruct (json.span_digits s) as [ds' r'] eqn:Hs.
    intros H. injection H as <- <-. apply span_digits_length in Hs.
    cbn. lia.
Qed.

Lemma match_integer_length (s i r : pystr) :
  json.match_integer s = Some (i, r) ->
  length s = length i + length r /\ 0 < length i.
Proof.
  unfold json.match_integer.
  destruct (strip_prefix [45%N] s) as [r0|] eqn:Hm.
  - apply strip_prefix_length in Hm.
    destruct (json.match_digits r0) as [[ds r']|] eqn:Hd; [|discriminate].
    intros H. injection H as <- <-. apply match_digits_length in Hd.
    cbn in *. lia.
  - apply match_digits_length.
Qed.

Lemma match_frac_length (s f r : pystr) :
  json.match_frac s = (f, r) -> length s = length f + length r.
Proof.
  unfold json.match_frac.
  destruct (strip_prefix [46%N] s) as [r0|] eqn:Hm.
  - apply strip_prefix_length in Hm.
    destruct (json.span_digits r0) as [[|d ds] r'] eqn:Hd;
      intros H; injection H as <- <-; [reflexivity|].
    apply span_digits_length in Hd. cbn in *. lia.
  - intros H. injection H as <- <-. reflexivity.
Qed.

Lemma match_sign_length (s sign r : pystr) :
  json.match_sign s = (sign, r) -> length s = length sign + length r.
Proof.
  unfold json.match_sign. destruct s as [|c s].
  - intros H. injection H as <- <-. reflexivity.
  - destruct ((c =? 45) || (c =? 43))%N; intros H; injection H as <- <-;
      reflexivity.
Qed.

Lemma match_exp_length (s e r : pystr) :
  json.match_exp s = (e, r) -> length s = length e + length r.
Proof.
  unfold json.match_exp. destruct s as [|c s].
  - intros H. injection H as <- <-. reflexivity.
  - destruct ((c =? 101) || (c =? 69))%N.
    2:{ intros H. injection H as <- <-. reflexivity. }
    destruct (json.match_sign s) as [sign r1] eqn:Hs.
    apply match_sign_length in Hs.
    destruct (json.span_digits r1) as [[|d ds] r'] eqn:Hd;
      intros H; injection H as <- <-; [reflexivity|].
    apply span_digits_length in Hd. cbn [length] in *.
    rewrite length_app. cbn [length]. lia.
Qed.

Lemma match_number_shrinks (s i f e r : pystr) :
  json.match_number s = Some (i, f, e, r) -> length r < length s.
Proof.
  unfold json.match_number.
  destruct (json.match_integer s) as [[i0 r0]|] eqn:Hi; [|discriminate].
  destruct (json.match_frac r0) as [f0 r1] eqn:Hf.
  destruct (json.match_exp r1) as [e0 r2] eqn:He.
  intros H. injection H as <- <- <- <-.
  apply match_integer_length in Hi. apply match_frac_length in Hf.
  apply match_exp_length in He. lia.
Qed.

Section Decoder.

Context {F : FloatText}.

Lemma scan_atom_shrinks (s : pystr) (v : pyval) (r : pystr) :
  json.scan_atom s = json.Scanned v r -> length r < length s.
Proof.
  unfold json.scan_atom. intros H.
  repeat (break_match_in H; try discriminate);
    injection H as <- <-;
    repeat match goal with
           | Hp : strip_prefix _ _ = Some _ |- _ =>
               apply strip_prefix_length in Hp; cbn [length] in Hp
           | Hn : json.match_number _ = Some _ |- _ =>
               apply match_number_shrinks in Hn
           end;
    try (change (length (pys "null")) with 4 in *);
    try (change (length (pys "true")) with 4 in *);
    try (change (length (pys "false")) with 5 in *);
    try (change (length (pys "NaN")) with 3 in *);
    try (change (length (pys "Infinity")) with 8 in *);
    try (change (length (pys "-Infinity")) with 9 in *);
    lia.
Qed.

Lemma scan_atom_fuel (s : pystr) : json.scan_atom s <> json.OutOfFuel.
Proof. unfold json.scan_atom. repeat break_match; discriminate. Qed.

(** Facts on lengths gathered from the hypotheses, for [lia]. *)
Ltac lengths :=
  repeat match goal with
         | H : strip_prefix _ _ = Some _ |- _ =>
             apply strip_prefix_length in H; cbn [length] in H
         | H : json.scanstring _ _ _ _ = json.Scanned _ _ |- _ =>
             apply scanstring_shrinks in H
         end;
  repeat match goal with
         | H : context [length (json.skip_ws ?x)] |- _ =>
             lazymatch goal with
             | _ : length (json.skip_ws x) <= length x |- _ => fail
             | _ => pose proof (skip_ws_length x)
             end
         | |- context [length (json.skip_ws ?x)] =>
             lazymatch goal with
             | _ : length (json.skip_ws x) <= length x |- _ => fail
             | _ => pose proof (skip_ws_length x)
             end
         end;
  cbn [length] in *.


Lemma scan_once_body_shrinks
  (object_loop : pystr -> json.scan (list (pystr * pyval)))
  (array_loop : pystr -> json.scan (list pyval)) :
  shrinks object_loop -> shrinks array_loop ->
  shrinks (json.scan_once_body object_loop array_loop).
Proof.
  intros Ho Ha s v r H. unfold json.scan_once_body in H.
  destruct s as [|c s]; [discriminate|].
  destruct (c =? 34)%N.
  { destruct (json.scanstring (c :: s) 0 [] s) eqn:Hs; try discriminate.
    injection H as _ <-. lengths. lia. }
  destruct (c =? 123)%N.
  { destruct (strip_prefix [125%N] (json.skip_ws s)) eqn:Hp.
    - injection H as _ <-. lengths. lia.
    - destruct (object_loop (json.skip_ws s)) eqn:Hl; try discriminate.
      injection H as _ <-. apply Ho in Hl. lengths. lia. }
  destruct (c =? 91)%N.
  { destruct (strip_prefix [93%N] (json.skip_ws s)) eqn:Hp.
    - injection H as _ <-. lengths. lia.
    - destruct (array_loop (json.skip_ws s)) eqn:Hl; try discriminate.
      injection H as _ <-. apply Ha in Hl. lengths. lia. }
  apply scan_atom_shrinks in H. exact H.
Qed.

Lemma array_items_body_shrinks
  (scan_value : pystr -> json.scan pyval)
  (loop : list pyval -> pystr -> json.scan (list pyval)) :
  shrinks scan_value -> (forall values, shrinks (loop values)) ->
  forall values, shrinks (json.array_items_body scan_value loop values).
Proof.
  intros Hv Hl values s l r H. unfold json.array_items_body in H.
  destruct (scan_value s) as [value rest| |] eqn:Hs; try discriminate.
  apply Hv in Hs.
  destruct (strip_prefix [93%N] (json.skip_ws rest)) eqn:Hp.
  - injection H as _ <-. lengths. lia.
  - destruct (strip_prefix [44%N] (json.skip_ws rest)) eqn:Hc; [|discriminate].
    apply Hl in H. lengths. lia.
Qed.

Lemma object_items_body_shrinks
  (scan_value : pystr -> json.scan pyval)
  (loop : list (pystr * pyval) -> pystr -> json.scan (list (pystr * pyval))) :
  shrinks scan_value -> (forall pairs, shrinks (loop pairs)) ->
  forall pairs, shrinks (json.object_items_body scan_value loop pairs).
Proof.
  intros Hv Hl pairs s l r H. unfold json.object_items_body in H.
  destruct (strip_prefix [34%N] s) as [r0|] eqn:Hq; [|discriminate].
  destruct (json.scanstring s 0 [] r0) as [key rest| |] eqn:Hk; try discriminate.
  destruct (strip_prefix [58%N] (json.skip_ws rest)) as [r1|] eqn:Hc;
    [|discriminate].
  destruct (scan_value (json.skip_ws r1)) as [value rest1| |] eqn:Hs;
    try discriminate.
  apply Hv in Hs.
  destruct (strip_prefix [125%N] (json.skip_ws rest1)) eqn:Hp.
  - injection H as _ <-. lengths. lia.
  - destruct (strip_prefix [44%N] (json.skip_ws rest1)) eqn:Hm; [|discriminate].
    apply Hl in H. lengths. lia.
Qed.

(** Whatever the scanner reads, it ends further on than it started. *)
Lemma scan_shrinks (fuel : nat) :
  shrinks (json.scan_once fuel) /\
  (forall values, shrinks (json.array_items fuel values)) /\
  (forall pairs, shrinks (json.object_items fuel pairs)).
Proof.
  induction fuel as [|fuel (IHs & IHa & IHo)].
  - repeat split; intros; intros s a r H; discriminate.
  - split; [|split].
    + apply scan_once_body_shrinks; [apply IHo | apply IHa].
    + apply array_items_body_shrinks; assumption.
    + apply object_items_body_shrinks; assumption.
Qed.

(** The fuel a scan needs is bounded by the length of the text. *)
Lemma scan_fuel (fuel : nat) :
  (forall s, 2 * length s + 1 <= fuel -> json.scan_once fuel s <> json.OutOfFuel) /\
  (forall values s, 2 * length s + 2 <= fuel ->
                    json.array_items fuel values s <> json.OutOfFuel) /\
  (forall pairs s, 2 * length s + 2 <= fuel ->
                   json.object_items fuel pairs s <> json.OutOfFuel).
Proof.
  induction fuel as [|fuel (IHs & IHa & IHo)].
  - repeat split; intros; lia.
  - destruct (scan_shrinks fuel) as (Ss & Sa & So).
    split; [|split].
    + intros s Hf. cbn [json.scan_once]. unfold json.scan_once_body.
      destruct s as [|c s]; [discriminate|].
      destruct (c =? 34)%N.
      { pose proof (@scanstring_fuel s (c :: s) 0 []).
        destruct (json.scanstring (c :: s) 0 [] s); congruence. }
      destruct (c =? 123)%N.
      { destruct (strip_prefix [125%N] (json.skip_ws s)); [discriminate|].
        assert (Hb : json.object_items fuel [] (json.skip_ws s) <> json.OutOfFuel).
        { apply IHo. lengths. lia. }
        destruct (json.object_items fuel [] (json.skip_ws s)); congruence. }
      destruct (c =? 91)%N.
      { destruct (strip_prefix [93%N] (json.skip_ws s)); [discriminate|].
        assert (Hb : json.array_items fuel [] (json.skip_ws s) <> json.OutOfFuel).
        { apply IHa. lengths. lia. }
        destruct (json.array_items fuel [] (json.skip_ws s)); congruence. }
      apply scan_atom_fuel.
    + intros values s Hf. cbn [json.array_items]. unfold json.array_items_body.
      assert (Hb : json.scan_once fuel s <> json.OutOfFuel) by (apply IHs; lia).
      destruct (json.scan_once fuel s) as [value rest| |] eqn:Hs;
        [|discriminate|congruence].
      apply Ss in Hs.
      destruct (strip_prefix [93%N] (json.skip_ws rest)); [discriminate|].
      destruct (strip_prefix [44%N] (json.skip_ws rest)) eqn:Hc; [|discriminate].
      apply IHa. lengths. lia.
    + intros pairs s Hf. cbn [json.object_items]. unfold json.object_items_body.
      destruct (strip_prefix [34%N] s) as [r0|] eqn:Hq; [|discriminate].
      pose proof (@scanstring_fuel r0 s 0 []) as Hk0.
      destruct (json.scanstring s 0 [] r0) as [key rest| |] eqn:Hk;
        [|discriminate|congruence].
      destruct (strip_prefix [58%N] (json.skip_ws rest)) as [r1|] eqn:Hc;
        [|discriminate].
      assert (Hb : json.scan_once fuel (json.skip_ws r1) <> json.OutOfFuel).
      { apply IHs. lengths. lia. }
      destruct (json.scan_once fuel (json.skip_ws r1)) as [value rest1| |] eqn:Hs;
        [|discriminate|congruence].
      apply Ss in Hs.
      destruct (strip_prefix [125%N] (json.skip_ws rest1)); [discriminate|].
      destruct (strip_prefix [44%N] (json.skip_ws rest1)) eqn:Hm; [|discriminate].
      apply IHo. lengths. lia.
Qed.


(** [loads] either returns a value or raises a [JSONDecodeError] on its
    argument: the fuel it starts with is never used up. *)
Lemma loads_result (s : pystr) :
  (exists v, json.loads s = Ok v) \/
  (exists msg pos, json.loads s = Raise (Exception (JSONDecodeError msg s pos))).
Proof.
  unfold json.loads. destruct (startswith s [65279%N]); [right; eauto|].
  destruct (scan_fuel (json.fuel_for s)) as (Hs & _ & _).
  specialize (Hs (json.skip_ws s)).
  destruct (json.scan_once (json.fuel_for s) (json.skip_ws s)) as [v rest|msg at_|].
  - destruct (json.skip_ws rest); [left|right]; eauto.
  - right; eauto.
  - exfalso. apply Hs; [|reflexivity].
    unfold json.fuel_for. pose proof (skip_ws_length s). lia.
Qed.

End Decoder.

(** ** Computations: outcomes and traces of [bind] and [try_except] *)

Lemma snd_bind {A B} (m : io A) (k : A -> io B) :
  snd (bind m k) =
  match snd m with
  | Ok a => snd (k a)
  | Raise x => Raise x
  end.
Proof.
  destruct m as [t [a|x]]; cbn; [|reflexivity].
  destruct (k a); reflexivity.
Qed.

Lemma fst_bind {A B} (m : io A) (k : A -> io B) :
  fst (bind m k) =
  fst m ++ match snd m with
           | Ok a => fst (k a)
           | Raise x => []
           end.
Proof.
  destruct m as [t [a|x]]; cbn; [|symmetry; apply List.app_nil_r].
  destruct (k a); reflexivity.
Qed.

Lemma snd_try_except {A} (body : io A) (handler : raised -> option (io A)) :
  snd (try_except body handler) =
  match snd body with
  | Ok a => Ok a
  | Raise x =>
      match handler x with
      | Some h => snd h
      | None => Raise x
      end
  end.
Proof.
  destruct body as [t [a|x]]; cbn; [reflexivity|].
  destruct (handler x) as [[t' r]|]; reflexivity.
Qed.

Lemma fst_try_except {A} (body : io A) (handler : raised -> option (io A)) :
  fst (try_except body handler) =
  fst body ++ match snd body with
              | Ok a => []
              | Raise x =>
                  match handler x with
                  | Some h => fst h
                  | None => []
                  end
              end.
Proof.
  destruct body as [t [a|x]]; cbn; [symmetry; apply List.app_nil_r|].
  destruct (handler x) as [[t' r]|]; cbn; [reflexivity|].
  symmetry; apply List.app_nil_r.
Qed.

(** ** What the stages can raise *)

(** [search_events] returns, unless it is interrupted. *)
Lemma attempts_loop_outcome (n : Z) (svc : OpenAIClient.service) (l : list Z) :
  (exists r, snd (OpenAIClient.attempts_loop n svc l) = Ok r) \/
  snd (OpenAIClient.attempts_loop n svc l) = Raise KeyboardInterrupt.
Proof.
  induction l as [|i l IH]; [left; eexists; reflexivity|].
  cbn [OpenAIClient.attempts_loop]. rewrite snd_bind, snd_try_except.
  unfold OpenAIClient.attempt_body, OpenAIClient.create.
  destruct (svc i) as [r|[|e]]; cbn.
  - destruct (OpenAIClient.has_text r); cbn.
    + left. eexists. reflexivity.
    + exact IH.
  - right. reflexivity.
  - unfold OpenAIClient.attempt_handler. destruct (i <? n - 1)%Z; cbn.
    + exact IH.
    + left. eexists. reflexivity.
Qed.

Lemma search_events_outcome (n : Z) (svc : OpenAIClient.service) :
  (exists r, snd (OpenAIClient.search_events n svc) = Ok r) \/
  snd (OpenAIClient.search_events n svc) = Raise KeyboardInterrupt.
Proof. apply attempts_loop_outcome. Qed.

Section Processing.

Context {F : FloatText}.

Import JSONHandler.

(** [parse_json] on a text whose extracted span the decoder accepts. *)
Lemma parse_json_ok (text clean : pystr) (data : pyval) :
  extract_json text = Some clean ->
  json.loads clean = Ok data ->
  parse_json text = ([], Ok data).
Proof.
  intros He Hl. unfold parse_json. rewrite He, Hl. reflexivity.
Qed.

(** [parse_json] on a text whose extracted span the decoder rejects. *)
Lemma parse_json_error (text clean : pystr) (msg : json_error_msg) (pos : nat) :
  extract_json text = Some clean ->
  json.loads clean = Raise (Exception (JSONDecodeError msg clean pos)) ->
  parse_json text =
    ([Print (JSONParsingError (JSONDecodeError msg clean pos));
      Print (ErrorAtLineColumn (json.lineno clean pos) (json.colno clean pos))],
     Ok PNone).
Proof.
  intros He Hl. unfold parse_json. rewrite He, Hl. reflexivity.
Qed.



End Processing.

(** ** The orchestrator *)

Section Orchestrator.

Context {F : FloatText}.

Lemma validate_config_result (key : pystr) :
  Config.validate key = Ok true \/
  exists msg, Config.validate key = Raise (Exception (ValueError msg)).
Proof.
  unfold Config.validate. destruct key as [|c key]; [right; eauto|].
  destruct (negb (startswith (c :: key) (pys "sk-"))); [right|left]; eauto.
Qed.



End Orchestrator.

(** The end-to-end scenarios of the specification.  A: the service
    returns a document with no event, which is printed, and the status is
    0.  B: the service is unreachable, and the status is 1 after three
    requests.  C: the service returns prose without braces, whose
    beginning is printed, and the status is 1. *)
Example scenario_A :
  kind_of_run (world_answering doc_no_events) = Success /\
  Main.exit_status (Main.main (world_answering doc_no_events)) = 0%Z /\
  requests (fst (Main.main (world_answering doc_no_events))) = [0%Z] /\
  In (Results (JSONHandler.format_json
                 (PDict [(pys "search_date", PStr (pys "2024-01-15"));
                         (pys "location", PStr (pys "Sacramento, California"));
                         (pys "events", PList [])]) 2))
     (printed (fst (Main.main (world_answering doc_no_events)))).
Proof.
  split; [reflexivity|]. split; [reflexivity|]. split; [reflexivity|].
  vm_compute. intuition.
Qed.

Example scenario_B :
  kind_of_run world_unreachable = SearchFailure /\
  Main.exit_status (Main.main world_unreachable) = 1%Z /\
  actions (fst (Main.main world_unreachable))
  = [ApiRequest 0; Sleep 1; ApiRequest 1; Sleep 2; ApiRequest 2]%Z.
Proof. repeat split; reflexivity. Qed.

Example scenario_C :
  kind_of_run (world_answering (pys "Sorry, I found nothing today."))
  = ProcessingFailure /\
  Main.exit_status
    (Main.main (world_answering (pys "Sorry, I found nothing today."))) = 1%Z /\
  In (RawResponse (pys "Sorry, I found nothing today."))
     (printed (fst (Main.main
                      (world_answering (pys "Sorry, I found nothing today."))))).
Proof.
  split; [reflexivity|]. split; [reflexivity|]. vm_compute. intuition.
Qed.

Example run_interrupted :
  kind_of_run world_interrupted = UserCancellation /\
  Main.exit_status (Main.main world_interrupted) = 0%Z.
Proof. split; reflexivity. Qed.

Example run_without_key :
  kind_of_run world_without_key = ConfigurationError /\
  Main.exit_status (Main.main world_without_key) = 1%Z /\
  Main.exit_status (Main.script world_without_key) = 1%Z.
Proof. repeat split; reflexivity. Qed.

(** ** Parsing and processing a response *)

Section ParseAndProcess.

Context {F : FloatText}.

Import JSONHandler.

#[local] Arguments OpenAIClient.search_events : simpl never.
#[local] Arguments process_response : simpl never.
#[local] Arguments validate_event_structure : simpl never.





End ParseAndProcess.




(** ** Formatting and parsing again *)

(** *** Strings *)





(** *** Integers *)















Section Atoms.

Context {F : FloatText}.


End Atoms.

(** *** Dictionaries *)


Section Dictionaries.

Context {F : FloatText}.






(** *** What a value starts with *)






End Dictionaries.

(** *** Values *)

Section RoundTrip.

Context {F : FloatText}.










End RoundTrip.

Section FormatJson.

Context {F : FloatText}.


End FormatJson.






(** ** More on the retry loop *)

Lemma requests_fruitless_steps (n : Z) (svc : OpenAIClient.service) (l : list Z) :
  requests (flat_map (fruitless_step n svc) l) = l.
Proof.
  induction l as [|i l IH]; [reflexivity|].
  cbn [flat_map]. rewrite requests_app, IH. unfold fruitless_step.
  destruct (svc i); [reflexivity|]. destruct (i <? n - 1)%Z; reflexivity.
Qed.

Lemma In_py_range (n i : Z) : In i (py_range n) <-> (0 <= i < n)%Z.
Proof.
  unfold py_range. rewrite in_map_iff. split.
  - intros (k & <- & Hk). apply in_seq in Hk. lia.
  - intros H. exists (Z.to_nat i). split; [lia|]. apply in_seq. lia.
Qed.

(** The indices before [k], then [k], then the ones after it. *)
Lemma py_range_split (n k : Z) :
  (0 <= k < n)%Z ->
  exists later, py_range n = py_range k ++ k :: later.
Proof.
  intros H. unfold py_range.
  replace (Z.to_nat n) with (Z.to_nat k + S (Z.to_nat n - S (Z.to_nat k)))%nat
    by lia.
  rewrite seq_app, map_app. cbn [seq map]. rewrite Nat.add_0_l.
  rewrite Z2Nat.id by lia. eexists. reflexivity.
Qed.

Lemma py_range_succ (k : Z) :
  (0 <= k)%Z -> py_range (k + 1) = py_range k ++ [k].
Proof.
  intros H. unfold py_range.
  replace (Z.to_nat (k + 1)) with (Z.to_nat k + 1)%nat by lia.
  rewrite seq_app, map_app. cbn [seq map]. rewrite Nat.add_0_l.
  rewrite Z2Nat.id by lia. reflexivity.
Qed.

(** A stretch of fruitless attempts, none of them the last, leaves the
    loop running. *)
Lemma attempts_loop_fruitless_prefix (n : Z) (svc : OpenAIClient.service)
  (before rest : list Z) :
  (forall i, In i before ->
             fruitless (svc i) = true /\ (i <? n - 1)%Z = true) ->
  exists t,
    actions t = flat_map (fruitless_step n svc) before /\
    OpenAIClient.attempts_loop n svc (before ++ rest) =
    (let (t', r) := OpenAIClient.attempts_loop n svc rest in (t ++ t', r)).
Proof.
  induction before as [|i before IH]; intros Hall.
  - exists []. split; [reflexivity|]. cbn [app].
    destruct (OpenAIClient.attempts_loop n svc rest). reflexivity.
  - destruct IH as (t' & Hact & Hloop).
    { intros j Hj. apply Hall. right. exact Hj. }
    destruct (Hall i (or_introl eq_refl)) as (Hf & Hlt).
    destruct (@fruitless_turn n svc i (before ++ rest) Hf (or_introl Hlt))
      as (t & Ht & Hturn).
    exists (t ++ t'). split.
    + rewrite actions_app, Ht, Hact. reflexivity.
    + cbn [app]. rewrite Hturn, Hloop.
      destruct (OpenAIClient.attempts_loop n svc rest) as [t'' r].
      rewrite app_assoc. reflexivity.
Qed.

(** The turn of an attempt that brings text: the loop returns it. *)
Lemma text_turn (n : Z) (svc : OpenAIClient.service) (attempt : Z)
  (rest : list Z) (r : OpenAIClient.response) (content : pystr) :
  svc attempt = OpenAIClient.Returns r ->
  OpenAIClient.has_text r = Some content ->
  OpenAIClient.attempts_loop n svc (attempt :: rest) =
  ([Print (SearchingForEvents attempt n); ApiRequest attempt;
    Print ReceivedResponse], Ok (Some content)).
Proof.
  intros Hs Ht. cbn [OpenAIClient.attempts_loop].
  unfold OpenAIClient.attempt_body, OpenAIClient.create. rewrite Hs. cbn.
  rewrite Ht. reflexivity.
Qed.

(** The turn of an attempt that is interrupted: the interrupt leaves the
    loop. *)
Lemma interrupted_turn (n : Z) (svc : OpenAIClient.service) (attempt : Z)
  (rest : list Z) :
  svc attempt = OpenAIClient.Raises Interrupted ->
  OpenAIClient.attempts_loop n svc (attempt :: rest) =
  ([Print (SearchingForEvents attempt n); ApiRequest attempt],
   Raise KeyboardInterrupt).
Proof.
  intros Hs. cbn [OpenAIClient.attempts_loop].
  unfold OpenAIClient.attempt_body, OpenAIClient.create. rewrite Hs.
  reflexivity.
Qed.

(** The attempts before attempt [k], when they are all fruitless. *)
Lemma search_events_upto (n k : Z) (svc : OpenAIClient.service) :
  (0 <= k < n)%Z ->
  (forall i, (0 <= i < k)%Z -> fruitless (svc i) = true) ->
  exists t later,
    actions t = flat_map (fruitless_step n svc) (py_range k) /\
    OpenAIClient.search_events n svc =
    (let (t', r) := OpenAIClient.attempts_loop n svc (k :: later) in
     (t ++ t', r)).
Proof.
  intros Hk Hall. destruct (py_range_split Hk) as [later Hsplit].
  destruct (@attempts_loop_fruitless_prefix n svc (py_range k) (k :: later))
    as (t & Hact & Hloop).
  { intros i Hi. apply In_py_range in Hi. split; [apply Hall; lia|].
    apply Z.ltb_lt. lia. }
  exists t, later. split; [exact Hact|].
  unfold OpenAIClient.search_events. rewrite Hsplit. exact Hloop.
Qed.

(** X1.  The search stops at the first attempt that brings text: when the
    attempts before attempt [k] are fruitless and attempt [k] returns a
    non-empty text, [search_events] returns that text after exactly
    [k + 1] requests, the waits being those of the failed attempts. *)
Theorem search_events_stops_at_first_text
  (max_retries k : Z) (svc : OpenAIClient.service)
  (r : OpenAIClient.response) (content : pystr) :
  (0 <= k < max_retries)%Z ->
  (forall i, (0 <= i < k)%Z -> fruitless (svc i) = true) ->
  svc k = OpenAIClient.Returns r ->
  OpenAIClient.has_text r = Some content ->
  exists t,
    OpenAIClient.search_events max_retries svc = (t, Ok (Some content)) /\
    requests t = py_range (k + 1) /\
    actions t =
      flat_map (fruitless_step max_retries svc) (py_range k) ++ [ApiRequest k].
Proof.
  intros Hk Hall Hs Ht.
  destruct (search_events_upto svc Hk Hall) as (t & later & Hact & Hrun).
  rewrite (@text_turn max_retries svc k later r content Hs Ht) in Hrun.
  eexists. split; [exact Hrun|].
  assert (Ha : actions (t ++ [Print (SearchingForEvents k max_retries);
                              ApiRequest k; Print ReceivedResponse])
               = flat_map (fruitless_step max_retries svc) (py_range k)
                 ++ [ApiRequest k]).
  { rewrite actions_app, Hact. reflexivity. }
  split; [|exact Ha].
  rewrite <- requests_actions, Ha, requests_app, requests_fruitless_steps.
  rewrite py_range_succ by lia. reflexivity.
Qed.

Lemma search_events_stops_at_first_text_witness :
  exists t,
    OpenAIClient.search_events Config.MAX_RETRIES (recovering_service (pys "{}"))
    = (t, Ok (Some (pys "{}"))) /\
    requests t = [0; 1; 2]%Z /\
    actions t = [ApiRequest 0; Sleep 1; ApiRequest 1; ApiRequest 2]%Z.
Proof.
  refine (@search_events_stops_at_first_text Config.MAX_RETRIES 2
            (recovering_service (pys "{}"))
            (OpenAIClient.Response (Some (pys "{}"))) (pys "{}") _ _ _ _).
  - unfold Config.MAX_RETRIES. lia.
  - intros i Hi. assert (Hc : i = 0%Z \/ i = 1%Z) by lia.
    destruct Hc as [->| ->]; reflexivity.
  - reflexivity.
  - reflexivity.
Defined.

Lemma sleeps_fruitless_steps (n : Z) (svc : OpenAIClient.service) (l : list Z) :
  sleeps (flat_map (fruitless_step n svc) l)
  = map (Z.pow 2) (filter (waits_after n svc) l).
Proof.
  induction l as [|i l IH]; [reflexivity|].
  cbn [flat_map filter]. rewrite sleeps_app, IH.
  unfold fruitless_step, waits_after.
  destruct (svc i); [reflexivity|]. destruct (i <? n - 1)%Z; reflexivity.
Qed.

(** X2.  Whatever the mix of exceptions and empty responses, a search
    none of whose attempts brings text makes exactly [max_retries]
    requests and returns [None]; it waits [2 ^ attempt] seconds after the
    attempts that raised, the last attempt excepted, and not at all after
    an empty response. *)
Theorem search_events_exhausts_attempts
  (max_retries : Z) (svc : OpenAIClient.service) :
  (forall i, (0 <= i < max_retries)%Z -> fruitless (svc i) = true) ->
  exists t,
    OpenAIClient.search_events max_retries svc = (t, Ok None) /\
    requests t = py_range max_retries /\
    sleeps t = map (Z.pow 2)
                   (filter (waits_after max_retries svc) (py_range max_retries)).
Proof.
  intros Hall.
  destruct (@search_events_fruitless max_retries svc Hall) as (t & Hrun & Hact).
  exists t. split; [exact Hrun|]. split.
  - rewrite <- requests_actions, Hact. apply requests_fruitless_steps.
  - rewrite <- sleeps_actions, Hact. apply sleeps_fruitless_steps.
Qed.

Lemma search_events_exhausts_attempts_witness :
  exists t,
    OpenAIClient.search_events Config.MAX_RETRIES degrading_service
    = (t, Ok None) /\
    requests t = [0; 1; 2]%Z /\
    sleeps t = [2]%Z.
Proof.
  refine (@search_events_exhausts_attempts Config.MAX_RETRIES
            degrading_service _).
  intros i Hi. unfold Config.MAX_RETRIES in Hi.
  assert (Hc : i = 0%Z \/ i = 1%Z \/ i = 2%Z) by lia.
  destruct Hc as [->|[->| ->]]; reflexivity.
Defined.

(** What any run of the loop does, attempt list by attempt list. *)
Lemma attempts_loop_bounds (n : Z) (svc : OpenAIClient.service) (l : list Z) :
  let t := fst (OpenAIClient.attempts_loop n svc l) in
  (exists j, requests t = firstn j l) /\
  Forall (fun s => exists i, In i l /\ (i < n - 1)%Z /\ s = (2 ^ i)%Z)
         (sleeps t) /\
  length (sleeps t) <= length (requests t).
Proof.
  induction l as [|i l IH]; cbn zeta.
  - split; [exists 0; reflexivity|]. split; [constructor | apply le_n].
  - cbn zeta in IH. destruct IH as ((j & Hreq) & Hsl & Hlen).
    assert (Hweak : Forall (fun s => exists i0, In i0 (i :: l) /\
                                     (i0 < n - 1)%Z /\ s = (2 ^ i0)%Z)
                           (sleeps (fst (OpenAIClient.attempts_loop n svc l)))).
    { eapply Forall_impl; [|exact Hsl]. intros s (i0 & Hin & Hlt & Hs).
      exists i0. split; [right; exact Hin|]. split; assumption. }
    cbn [OpenAIClient.attempts_loop].
    unfold OpenAIClient.attempt_body, OpenAIClient.create.
    destruct (svc i) as [r|[|e]]; cbn.
    + destruct (OpenAIClient.has_text r); cbn.
      * split; [exists 1; reflexivity|]. split; [constructor|]. cbn. lia.
      * destruct (OpenAIClient.attempts_loop n svc l) as [t' r']. cbn in *.
        split; [exists (S j); cbn; rewrite Hreq; reflexivity|].
        split; [exact Hweak | lia].
    + split; [exists 1; reflexivity|]. split; [constructor|]. cbn. lia.
    + unfold OpenAIClient.attempt_handler.
      destruct (i <? n - 1)%Z eqn:Hlt; cbn.
      * destruct (OpenAIClient.attempts_loop n svc l) as [t' r']. cbn in *.
        split; [exists (S j); cbn; rewrite Hreq; reflexivity|].
        split; [|lia]. constructor; [|exact Hweak].
        exists i. split; [left; reflexivity|]. split; [|reflexivity].
        apply Z.ltb_lt. exact Hlt.
      * split; [exists 1; reflexivity|]. split; [constructor|]. cbn. lia.
Qed.

(** X3.  Whatever the service does, [search_events] makes requests at the
    attempt indices 0, 1, 2, ... in that order and at most [max_retries]
    of them; every wait is [2 ^ attempt] seconds for an attempt that is
    not the last, and there are no more waits than requests. *)
Theorem search_events_bounds (max_retries : Z) (svc : OpenAIClient.service) :
  let t := fst (OpenAIClient.search_events max_retries svc) in
  (exists j, requests t = firstn j (py_range max_retries)) /\
  length (requests t) <= Z.to_nat max_retries /\
  Forall (is_backoff max_retries) (sleeps t) /\
  length (sleeps t) <= length (requests t).
Proof.
  cbn zeta. unfold OpenAIClient.search_events.
  destruct (attempts_loop_bounds max_retries svc (py_range max_retries))
    as ((j & Hreq) & Hsl & Hlen).
  split; [exists j; exact Hreq|]. split; [|split; [|exact Hlen]].
  - rewrite Hreq, length_firstn. unfold py_range.
    rewrite length_map, length_seq. lia.
  - eapply Forall_impl; [|exact Hsl]. intros s (i & Hin & Hlt & Hs).
    apply In_py_range in Hin. exists i. split; [lia | exact Hs].
Qed.

(** X4.  An interrupt from the keyboard is not retried: when the attempts
    before attempt [k] are fruitless and attempt [k] is interrupted,
    [search_events] lets [KeyboardInterrupt] through after exactly [k + 1]
    requests. *)
Theorem search_events_interrupted
  (max_retries k : Z) (svc : OpenAIClient.service) :
  (0 <= k < max_retries)%Z ->
  (forall i, (0 <= i < k)%Z -> fruitless (svc i) = true) ->
  svc k = OpenAIClient.Raises Interrupted ->
  exists t,
    OpenAIClient.search_events max_retries svc = (t, Raise KeyboardInterrupt) /\
    requests t = py_range (k + 1).
Proof.
  intros Hk Hall Hs.
  destruct (search_events_upto svc Hk Hall) as (t & later & Hact & Hrun).
  rewrite (@interrupted_turn max_retries svc k later Hs) in Hrun.
  eexists. split; [exact Hrun|].
  rewrite <- requests_actions, actions_app, Hact, requests_app,
    requests_fruitless_steps.
  rewrite py_range_succ by lia. reflexivity.
Qed.

Lemma search_events_interrupted_witness :
  exists t,
    OpenAIClient.search_events Config.MAX_RETRIES interrupted_service
    = (t, Raise KeyboardInterrupt) /\
    requests t = [0; 1]%Z.
Proof.
  refine (@search_events_interrupted Config.MAX_RETRIES 1
            interrupted_service _ _ _).
  - unfold Config.MAX_RETRIES. lia.
  - intros i Hi. assert (Hc : i = 0%Z) by lia. subst i. reflexivity.
  - reflexivity.
Defined.

(** X5.  No [Exception] leaves [search_events], whatever the service
    raises: it returns, or it lets a [KeyboardInterrupt] through. *)
Theorem search_events_contains_exceptions
  (max_retries : Z) (svc : OpenAIClient.service) :
  (forall e, snd (OpenAIClient.search_events max_retries svc)
             <> Raise (Exception e)) /\
  (forall code, snd (OpenAIClient.search_events max_retries svc)
                <> Raise (SystemExit code)) /\
  ((exists i, In i (py_range max_retries) /\
              svc i = OpenAIClient.Raises Interrupted) \/
   exists r, snd (OpenAIClient.search_events max_retries svc) = Ok r).
Proof.
  destruct (search_events_outcome max_retries svc) as [[r Hr]|Hr].
  - rewrite Hr. split; [discriminate|]. split; [discriminate|].
    right. exists r. reflexivity.
  - rewrite Hr. split; [discriminate|]. split; [discriminate|].
    left. revert Hr. unfold OpenAIClient.search_events.
    induction (py_range max_retries) as [|i l IH]; [discriminate|].
    cbn [OpenAIClient.attempts_loop]. rewrite snd_bind, snd_try_except.
    unfold OpenAIClient.attempt_body, OpenAIClient.create.
    destruct (svc i) as [r|[|e]] eqn:Hs; cbn.
    + destruct (OpenAIClient.has_text r); cbn; [discriminate|].
      intros H. destruct (IH H) as (j & Hj & Hsj).
      exists j. split; [right; exact Hj | exact Hsj].
    + intros _. exists i. split; [left; reflexivity | exact Hs].
    + unfold OpenAIClient.attempt_handler. destruct (i <? max_retries - 1)%Z; cbn;
        [|discriminate].
      intros H. destruct (IH H) as (j & Hj & Hsj).
      exists j. split; [right; exact Hj | exact Hsj].
Qed.

(** ** More on [extract_json] *)

Lemma subseq_refl {A} (l : list A) : subseq l l.
Proof. induction l; constructor; assumption. Qed.

Lemma subseq_nil_l {A} (l : list A) : subseq [] l.
Proof. induction l; constructor; assumption. Qed.

Lemma subseq_trans {A} (a b c : list A) :
  subseq a b -> subseq b c -> subseq a c.
Proof.
  intros Hab Hbc. revert a Hab.
  induction Hbc as [|x b c Hbc IH|x b c Hbc IH]; intros a Hab.
  - exact Hab.
  - apply subseq_drop, IH, Hab.
  - inversion Hab as [|x' a' b' Hab'|x' a' b' Hab']; subst.
    + apply subseq_drop, IH, Hab'.
    + apply subseq_keep, IH, Hab'.
Qed.

Lemma subseq_length {A} (a b : list A) : subseq a b -> length a <= length b.
Proof. induction 1; cbn; lia. Qed.

Lemma subseq_infix {A} (a g b : list A) : subseq g (a ++ g ++ b).
Proof.
  induction a as [|x a IH]; [|apply subseq_drop, IH].
  cbn. induction g as [|y g IHg]; [apply subseq_nil_l|].
  apply subseq_keep, IHg.
Qed.

(** A substitution by the empty string only deletes characters. *)
Lemma remove_matches_subseq (m : pystr -> option nat) (k : nat) (s : pystr) :
  subseq (re.remove_matches m k s) s.
Proof.
  revert k. induction s as [|c s IH]; intros k; [constructor|].
  cbn [re.remove_matches]. destruct k as [|k]; [|apply subseq_drop, IH].
  destruct (m (c :: s)) as [[|len]|].
  - apply subseq_keep, IH.
  - apply subseq_drop, IH.
  - apply subseq_keep, IH.
Qed.

(** The match of the brace pattern is a stretch of the text, from an
    opening brace to a closing brace. *)
Lemma upto_last_prefix (c : pychar) (s p : pystr) :
  re.upto_last c s = Some p ->
  exists q b, p = q ++ [c] /\ s = p ++ b.
Proof.
  revert p. induction s as [|d s IH]; intros p H; [discriminate|].
  cbn [re.upto_last] in H. destruct (re.upto_last c s) as [p'|].
  - injection H as <-. destruct (IH p' eq_refl) as (q & b & Hp & Hs).
    exists (d :: q), b. split; [cbn; congruence|]. cbn. congruence.
  - destruct (chr_eqb d c) eqn:Hd; [|discriminate]. injection H as <-.
    apply chr_eqb_eq in Hd. subst d. exists [], s. split; reflexivity.
Qed.

Lemma search_braces_infix (t g : pystr) :
  re.search_braces t = Some g ->
  exists a q b, g = re.lbrace :: q ++ [re.rbrace] /\ t = a ++ g ++ b.
Proof.
  revert g. induction t as [|c t IH]; intros g H; [discriminate|].
  cbn [re.search_braces] in H.
  assert (Hrec : re.search_braces t = Some g ->
                 exists a q b, g = re.lbrace :: q ++ [re.rbrace] /\
                               c :: t = a ++ g ++ b).
  { intros Ht. destruct (IH g Ht) as (a & q & b & Hg & Hs).
    exists (c :: a), q, b. split; [exact Hg|]. cbn. congruence. }
  destruct (chr_eqb c re.lbrace) eqn:Hc; [|exact (Hrec H)].
  destruct (re.upto_last re.rbrace t) as [body|] eqn:Hu; [|exact (Hrec H)].
  injection H as <-. apply chr_eqb_eq in Hc. subst c.
  destruct (upto_last_prefix _ _ Hu) as (q & b & Hbody & Ht).
  exists [], q, b. split; [congruence|]. cbn. congruence.
Qed.

(** Stripping white space leaves a stretch of the text. *)
Lemma lstrip_suffix (s : pystr) : exists a, s = a ++ lstrip s.
Proof.
  induction s as [|c s (a & IH)]; [exists []; reflexivity|].
  cbn [lstrip]. destruct (isspace c); [|exists []; reflexivity].
  exists (c :: a). cbn. congruence.
Qed.

Lemma rstrip_prefix (s : pystr) : exists b, s = rstrip s ++ b.
Proof.
  unfold rstrip. destruct (lstrip_suffix (rev s)) as (a & Ha).
  exists (rev a). rewrite <- rev_app_distr, <- Ha, rev_involutive. reflexivity.
Qed.

Lemma strip_infix (s : pystr) : exists a b, s = a ++ strip s ++ b.
Proof.
  unfold strip. destruct (lstrip_suffix s) as (a & Ha).
  destruct (rstrip_prefix (lstrip s)) as (b & Hb).
  exists a, b. rewrite <- Hb. exact Ha.
Qed.

(** The text [extract_json] returns is a stretch of the text without
    fences. *)
Lemma extract_json_infix (text : pystr) :
  exists s a b,
    JSONHandler.extract_json text = Some s /\
    without_fences text = a ++ s ++ b.
Proof.
  unfold JSONHandler.extract_json. fold (without_fences text).
  destruct (re.search_braces (without_fences text)) as [g|] eqn:Hs.
  - destruct (search_braces_infix _ Hs) as (a & q & b & _ & Ht).
    exists g, a, b. split; [reflexivity | exact Ht].
  - destruct (strip_infix (without_fences text)) as (a & b & Ht).
    exists (strip (without_fences text)), a, b.
    split; [reflexivity | exact Ht].
Qed.

(** X6.  [extract_json] only deletes characters: its result is the input
    with some characters removed, the others in their order, and so is
    never longer than the input. *)
Theorem extract_json_only_deletes (text : pystr) :
  exists s,
    JSONHandler.extract_json text = Some s /\
    subseq s text /\
    length s <= length text.
Proof.
  destruct (extract_json_infix text) as (s & a & b & He & Ht).
  assert (Hsub : subseq s text).
  { apply subseq_trans with (b := without_fences text).
    - rewrite Ht. apply subseq_infix.
    - unfold without_fences, re.sub_fence, re.sub_json_fence.
      eapply subseq_trans; apply remove_matches_subseq. }
  exists s. split; [exact He|]. split; [exact Hsub|].
  apply subseq_length, Hsub.
Qed.

(** A pattern found in a stretch of a text is found in the text. *)
Lemma strip_prefix_app_r (p s r b : pystr) :
  strip_prefix p s = Some r -> strip_prefix p (s ++ b) = Some (r ++ b).
Proof.
  revert s. induction p as [|c p IH]; intros s H.
  - injection H as ->. reflexivity.
  - destruct s as [|d s]; [discriminate|]. cbn [strip_prefix app] in *.
    destruct (chr_eqb c d); [apply IH, H | discriminate].
Qed.

Lemma startswith_app_r (s p b : pystr) :
  startswith s p = true -> startswith (s ++ b) p = true.
Proof.
  unfold startswith. destruct (strip_prefix p s) as [r|] eqn:H; [|discriminate].
  rewrite (strip_prefix_app_r _ _ b H). reflexivity.
Qed.

Lemma str_contains_app_r (p s b : pystr) :
  str_contains p s = true -> str_contains p (s ++ b) = true.
Proof.
  induction s as [|c s IH]; cbn [str_contains app]; intros H.
  - rewrite orb_false_r in H.
    pose proof (startswith_app_r [] p b H) as H'. cbn [app] in H'.
    destruct b as [|d b]; cbn [str_contains]; rewrite H'; reflexivity.
  - apply orb_prop in H as [H|H].
    + pose proof (startswith_app_r (c :: s) p b H) as H'. cbn [app] in H'.
      rewrite H'. reflexivity.
    + rewrite (IH H). apply orb_true_r.
Qed.

Lemma str_contains_app_l (p a s : pystr) :
  str_contains p s = true -> str_contains p (a ++ s) = true.
Proof.
  intros H. induction a as [|c a IH]; [exact H|].
  cbn [app str_contains]. rewrite IH. apply orb_true_r.
Qed.

Lemma str_contains_infix (p a s b : pystr) :
  str_contains p (a ++ s ++ b) = false -> str_contains p s = false.
Proof.
  intros H. destruct (str_contains p s) eqn:Hs; [|reflexivity].
  rewrite (str_contains_app_l p a _ (str_contains_app_r p s b Hs)) in H.
  discriminate.
Qed.

Lemma str_contains_head (p : pystr) (c : pychar) (s : pystr) :
  str_contains p (c :: s) = false ->
  startswith (c :: s) p = false /\ str_contains p s = false.
Proof. cbn [str_contains]. intros H. apply orb_false_elim in H. exact H. Qed.

(** A text without fence markers goes through both substitutions
    unchanged. *)
Lemma sub_fence_free (s : pystr) :
  str_contains (pys "```") s = false -> re.sub_fence s = s.
Proof.
  induction s as [|c s IH]; [reflexivity|]. intros H.
  apply str_contains_head in H as [Hh Ht].
  rewrite (sub_fence_keep _ _ Hh), (IH Ht). reflexivity.
Qed.

Lemma startswith_json_fence (s : pystr) :
  startswith s (pys "```json") = true -> startswith s (pys "```") = true.
Proof.
  unfold startswith.
  change (pys "```json") with ([96; 96; 96] ++ [106; 115; 111; 110])%N.
  change (pys "```") with [96; 96; 96]%N.
  destruct s as [|a [|b [|c r]]]; cbn [strip_prefix app]; try discriminate.
  - destruct (chr_eqb 96%N a); discriminate.
  - destruct (chr_eqb 96%N a); [|discriminate].
    destruct (chr_eqb 96%N b); discriminate.
  - destruct (chr_eqb 96%N a); [|discriminate].
    destruct (chr_eqb 96%N b); [|discriminate].
    destruct (chr_eqb 96%N c); [reflexivity | discriminate].
Qed.

Lemma sub_json_fence_keep (c : pychar) (s : pystr) :
  startswith (c :: s) (pys "```json") = false ->
  re.sub_json_fence (c :: s) = c :: re.sub_json_fence s.
Proof.
  unfold re.sub_json_fence, startswith. cbn [re.remove_matches].
  unfold re.match_marker.
  destruct (strip_prefix (pys "```json") (c :: s)); [discriminate | reflexivity].
Qed.

Lemma sub_json_fence_free (s : pystr) :
  str_contains (pys "```") s = false -> re.sub_json_fence s = s.
Proof.
  induction s as [|c s IH]; [reflexivity|]. intros H.
  apply str_contains_head in H as [Hh Ht].
  rewrite sub_json_fence_keep, (IH Ht); [reflexivity|].
  destruct (startswith (c :: s) (pys "```json")) eqn:Hj; [|reflexivity].
  apply startswith_json_fence in Hj. congruence.
Qed.

Lemma without_fences_free (s : pystr) :
  str_contains (pys "```") s = false -> without_fences s = s.
Proof.
  intros H. unfold without_fences.
  rewrite (sub_json_fence_free _ H). apply sub_fence_free, H.
Qed.

(** A text that starts with an opening brace and ends with a closing
    brace is the match of the brace pattern in itself. *)
Lemma upto_last_self (c : pychar) (q : pystr) :
  re.upto_last c (q ++ [c]) = Some (q ++ [c]).
Proof.
  induction q as [|d q IH]; cbn [app re.upto_last].
  - rewrite chr_eqb_refl. reflexivity.
  - rewrite IH. reflexivity.
Qed.

Lemma search_braces_self (q : pystr) :
  re.search_braces (re.lbrace :: q ++ [re.rbrace])
  = Some (re.lbrace :: q ++ [re.rbrace]).
Proof.
  cbn [re.search_braces]. rewrite chr_eqb_refl, upto_last_self. reflexivity.
Qed.

(** A text where the brace pattern finds nothing has no stretch where it
    finds something. *)
Lemma rfind_none_app_r (c : pychar) (s b : pystr) :
  rfind c (s ++ b) = None -> rfind c s = None.
Proof.
  induction s as [|d s IH]; [reflexivity|]. cbn [app rfind].
  destruct (rfind c (s ++ b)); [discriminate|]. intros H.
  rewrite (IH eq_refl). exact H.
Qed.

Lemma search_braces_none_tail (c : pychar) (s : pystr) :
  re.search_braces (c :: s) = None -> re.search_braces s = None.
Proof.
  cbn [re.search_braces]. destruct (chr_eqb c re.lbrace); [|exact (fun H => H)].
  destruct (re.upto_last re.rbrace s); [discriminate | exact (fun H => H)].
Qed.

Lemma search_braces_none_app_l (a s : pystr) :
  re.search_braces (a ++ s) = None -> re.search_braces s = None.
Proof.
  induction a as [|c a IH]; [exact (fun H => H)|].
  intros H. apply IH, (search_braces_none_tail _ _ H).
Qed.

Lemma search_braces_none_app_r (s b : pystr) :
  re.search_braces (s ++ b) = None -> re.search_braces s = None.
Proof.
  induction s as [|c s IH]; [reflexivity|]. cbn [app re.search_braces].
  intros H.
  assert (Hrec : re.search_braces s = None).
  { apply IH. destruct (chr_eqb c re.lbrace); [|exact H].
    destruct (re.upto_last re.rbrace (s ++ b)); [discriminate | exact H]. }
  rewrite Hrec. destruct (chr_eqb c re.lbrace); [|reflexivity].
  rewrite upto_last_rfind in *.
  destruct (rfind re.rbrace (s ++ b)) eqn:Hr; [discriminate|].
  rewrite (rfind_none_app_r _ _ _ Hr). reflexivity.
Qed.

(** Stripping twice is stripping once. *)
Lemma lstrip_head (s : pystr) (c : pychar) (r : pystr) :
  lstrip s = c :: r -> isspace c = false.
Proof.
  induction s as [|d s IH]; [discriminate|]. cbn [lstrip].
  destruct (isspace d) eqn:Hd; [exact IH|]. intros H. congruence.
Qed.

Lemma lstrip_lstrip (s : pystr) : lstrip (lstrip s) = lstrip s.
Proof.
  destruct (lstrip s) as [|c r] eqn:H; [reflexivity|].
  cbn [lstrip]. rewrite (lstrip_head _ H). reflexivity.
Qed.

Lemma strip_strip (s : pystr) : strip (strip s) = strip s.
Proof.
  unfold strip.
  assert (H : lstrip (rstrip (lstrip s)) = rstrip (lstrip s)).
  { destruct (rstrip_prefix (lstrip s)) as (b & Hb).
    destruct (rstrip (lstrip s)) as [|c r] eqn:Hr; [reflexivity|].
    cbn [lstrip]. cbn [app] in Hb. rewrite (lstrip_head _ Hb). reflexivity. }
  rewrite H. unfold rstrip. rewrite rev_involutive, lstrip_lstrip.
  reflexivity.
Qed.

(** X7.  [extract_json] is idempotent: applied to its own result, it
    returns that result unchanged. *)
Theorem extract_json_idempotent (text : pystr) :
  exists s,
    JSONHandler.extract_json text = Some s /\
    JSONHandler.extract_json s = Some s.
Proof.
  destruct (extract_json_infix text) as (s & a & b & He & Ht).
  exists s. split; [exact He|].
  assert (Hfree : str_contains (pys "```") s = false).
  { apply (str_contains_infix _ a s b). rewrite <- Ht.
    apply without_fences_no_fence. }
  revert He. unfold JSONHandler.extract_json.
  fold (without_fences text). fold (without_fences s).
  rewrite (without_fences_free _ Hfree).
  destruct (re.search_braces (without_fences text)) as [g|] eqn:Hs.
  - intros H. injection H as ->.
    destruct (search_braces_infix _ Hs) as (_ & q & _ & Hg & _).
    rewrite Hg, search_braces_self. reflexivity.
  - intros H. injection H as <-.
    destruct (strip_infix (without_fences text)) as (a' & b' & Hstrip).
    rewrite Hstrip in Hs.
    apply search_braces_none_app_l, search_braces_none_app_r in Hs.
    rewrite Hs, strip_strip. reflexivity.
Qed.

(** ** What the validator accepts *)

Section ValidatorAccepts.

Context {F : FloatText}.

Import JSONHandler.

#[local] Arguments Nat.ltb : simpl never.
#[local] Arguments Nat.eqb : simpl never.

(** The loop over the fields falls through only when every field is a
    key of the event. *)
Lemma check_fields_fell (number : nat) (d : list (pystr * pyval))
  (fields : list pystr) :
  snd (check_fields number (PDict d) fields) = Ok Fell ->
  forallb (fun field => dict_has field d) fields = true.
Proof.
  induction fields as [|field rest IH]; [reflexivity|].
  cbn [check_fields forallb]. rewrite snd_bind. cbn [lift snd py_in].
  destruct (dict_has field d); cbn [negb andb].
  - exact IH.
  - cbn. discriminate.
Qed.

(** The checks of one event fall through only for a well-shaped event. *)
Lemma check_event_fell (i : nat) (event : pyval) :
  snd (check_event i event) = Ok Fell -> well_shaped event = true.
Proof.
  assert (Hother : forall v : pyval,
             py_get v (pys "instagram_handles")
             = Raise (Exception AttributeError) ->
             snd (check_event i v) <> Ok Fell).
  { intros v Hv. unfold check_event. rewrite snd_bind.
    destruct (check_fields_result (i + 1) v required_fields) as [|l Hl|e];
      cbn [snd]; try discriminate.
    rewrite snd_bind, Hv. discriminate. }
  destruct event as [| | | | | | |d];
    try (intros H; exfalso; revert H; apply Hother; reflexivity).
  unfold check_event. rewrite snd_bind.
  destruct (check_fields (i + 1) (PDict d) required_fields)
    as [t [[b|]|x]] eqn:Hf; cbn [snd]; try (cbn; discriminate).
  - assert (Hall : forallb (fun field => dict_has field d) required_fields
                   = true)
      by (apply (check_fields_fell (i + 1)); rewrite Hf; reflexivity).
    unfold well_shaped. rewrite Hall. cbn [andb].
    rewrite snd_bind. cbn [lift snd py_get].
    destruct (dict_get (pys "instagram_handles") d) as [[]|]; cbn [snd];
      try (cbn; discriminate).
    cbn [is_list negb andb]. rewrite snd_bind. cbn [lift snd].
    destruct (dict_get (pys "is_free") d) as [[]|]; cbn [snd];
      try (cbn; discriminate).
    cbn [is_bool negb andb]. rewrite snd_bind. cbn [lift snd].
    destruct (dict_get (pys "is_sold_out") d) as [[]|]; cbn [snd];
      try (cbn; discriminate).
    reflexivity.
Qed.

Lemma check_events_fell (i : nat) (events : list pyval) :
  snd (check_events i events) = Ok Fell -> forallb well_shaped events = true.
Proof.
  revert i. induction events as [|event rest IH]; intros i; [reflexivity|].
  cbn [check_events forallb]. rewrite snd_bind.
  destruct (check_event i event) as [t [[b|]|x]] eqn:He; cbn [snd];
    try (cbn; discriminate).
  - intros H. rewrite (check_event_fell i event), (IH _ H);
      [reflexivity | rewrite He; reflexivity].
Qed.

(** A key is in a dictionary exactly when [get] finds a value for it. *)
Lemma dict_has_get (key : pystr) (d : list (pystr * pyval)) :
  dict_has key d = match dict_get key d with Some _ => true | None => false end.
Proof.
  induction d as [|[k w] d IH]; [reflexivity|].
  cbn [dict_has dict_get]. destruct (str_eqb key k); [reflexivity | exact IH].
Qed.

(** The outcome of validation on a dictionary, read off its [events]
    entry. *)
Lemma validate_dict_outcome (d : list (pystr * pyval)) :
  snd (validate_event_structure (PDict d)) =
  match dict_get (pys "events") d with
  | Some (PList events) =>
      match snd (check_events 0 events) with
      | Ok Fell => Ok true
      | _ => Ok false
      end
  | _ => Ok false
  end.
Proof.
  unfold validate_event_structure. rewrite snd_try_except, snd_bind.
  cbn [lift snd py_in]. rewrite dict_has_get.
  destruct (dict_get (pys "events") d) as [v|] eqn:Hget; cbn [negb];
    [|reflexivity].
  rewrite snd_bind. cbn [lift snd py_getitem]. rewrite Hget.
  destruct v as [| | | | |events| |]; try reflexivity.
  rewrite snd_bind.
  destruct (check_events_result 0 events) as [|l Hl|e]; cbn [snd];
    try reflexivity.
  repeat (rewrite snd_bind; cbn [print emit snd]).
  destruct (length events <? 10)%nat.
  - repeat (rewrite snd_bind; cbn [print emit snd]). reflexivity.
  - destruct (length events =? 10)%nat; cbn; reflexivity.
Qed.

(** X8.  [validate_event_structure] returns [True] for exactly the
    values the schema describes: a dictionary whose [events] entry is a
    list of well-shaped events.  For anything else, a value that is not a
    dictionary included, it returns [False]. *)
Theorem validate_accepts_exactly_well_shaped (data : pyval) :
  (snd (validate_event_structure data) = Ok true <->
   exists d events,
     data = PDict d /\
     dict_get (pys "events") d = Some (PList events) /\
     forallb well_shaped events = true) /\
  (snd (validate_event_structure data) = Ok true \/
   snd (validate_event_structure data) = Ok false).
Proof.
  assert (Hother : forall v : pyval,
             (forall d, v <> PDict d) ->
             snd (validate_event_structure v) = Ok false).
  { intros v Hv. unfold validate_event_structure.
    rewrite snd_try_except, snd_bind.
    destruct v as [| | | | |l|l|d]; cbn [lift snd py_in]; try reflexivity.
    - destruct (str_contains (pys "events") s); reflexivity.
    - destruct (existsb (eq_str (pys "events")) l); reflexivity.
    - destruct (existsb (eq_str (pys "events")) l); reflexivity.
    - exfalso. exact (Hv d eq_refl). }
  destruct data as [| | | | | | |d];
    try (split;
         [split;
          [rewrite Hother by discriminate; discriminate
          |intros (d & events & Hd & _); discriminate]
         |right; apply Hother; discriminate]).
  rewrite validate_dict_outcome. split.
  - split.
    + intros H.
      destruct (dict_get (pys "events") d) as [[| | | | |events| |]|] eqn:Hget;
        try discriminate.
      exists d, events. split; [reflexivity|]. split; [exact Hget|].
      apply (check_events_fell 0).
      destruct (snd (check_events 0 events)) as [[b|]|x];
        [discriminate | reflexivity | discriminate].
    + intros (d' & events & Hd & Hget & Hall). injection Hd as <-.
      rewrite Hget, (check_events_well_shaped 0 _ Hall). reflexivity.
  - destruct (dict_get (pys "events") d) as [[| | | | |events| |]|]; auto.
    destruct (snd (check_events 0 events)) as [[b|]|x]; auto.
Qed.

(** X9.  Validation reads nothing of a response but its [events] entry:
    two dictionaries with the same entry are told apart neither by the
    result nor by what is printed.  The keys [search_date] and [location]
    of the response format are never looked at. *)
Theorem validate_reads_only_events (d d' : list (pystr * pyval)) :
  dict_get (pys "events") d = dict_get (pys "events") d' ->
  validate_event_structure (PDict d) = validate_event_structure (PDict d').
Proof.
  intros H. unfold validate_event_structure. cbn [py_in py_getitem].
  rewrite !dict_has_get, H. reflexivity.
Qed.

End ValidatorAccepts.

Lemma validate_reads_only_events_witness :
  JSONHandler.validate_event_structure (response_with [sample_event])
  = JSONHandler.validate_event_structure
      (PDict [(pys "events", PList [sample_event])]).
Proof.
  apply validate_reads_only_events. reflexivity.
Defined.

(** ** What [process_response] returns *)

Section ProcessResult.

Context {F : FloatText}.

Import JSONHandler.

#[local] Arguments validate_event_structure : simpl never.


End ProcessResult.

(** ** A JSON object inside a response *)

(** Nothing is found before the first opening brace. *)
Lemma search_braces_skip (a s : pystr) :
  ~ In re.lbrace a -> re.search_braces (a ++ s) = re.search_braces s.
Proof.
  induction a as [|c a IH]; intros Ha; [reflexivity|].
  cbn [app re.search_braces].
  destruct (chr_eqb c re.lbrace) eqn:Hc.
  - exfalso. apply Ha. left. apply chr_eqb_eq, Hc.
  - apply IH. intros Hin. apply Ha. right. exact Hin.
Qed.

Lemma upto_last_absent (c : pychar) (s : pystr) :
  ~ In c s -> re.upto_last c s = None.
Proof.
  induction s as [|d s IH]; intros Hs; [reflexivity|].
  cbn [re.upto_last]. rewrite IH by (intros Hin; apply Hs; right; exact Hin).
  destruct (chr_eqb d c) eqn:Hd; [|reflexivity].
  exfalso. apply Hs. left. apply chr_eqb_eq, Hd.
Qed.

(** The greedy match runs to the last occurrence. *)
Lemma upto_last_app (c : pychar) (m tail : pystr) :
  ~ In c tail -> re.upto_last c (m ++ c :: tail) = Some (m ++ [c]).
Proof.
  intros Ht. induction m as [|d m IH]; cbn [app re.upto_last].
  - rewrite (upto_last_absent _ _ Ht), chr_eqb_refl. reflexivity.
  - rewrite IH. reflexivity.
Qed.

Lemma search_braces_object (a m c : pystr) :
  ~ In re.lbrace a -> ~ In re.rbrace c ->
  re.search_braces (a ++ re.lbrace :: m ++ re.rbrace :: c)
  = Some (re.lbrace :: m ++ [re.rbrace]).
Proof.
  intros Ha Hc. rewrite (search_braces_skip _ _ Ha).
  cbn [re.search_braces]. rewrite chr_eqb_refl, (upto_last_app _ m _ Hc).
  reflexivity.
Qed.

(** X11.  A JSON object embedded in prose is extracted exactly: when the
    text holds no fence marker, the text before the object no opening
    brace and the text after it no closing brace, [extract_json] returns
    the object, braces included, and nothing of the prose. *)
Theorem extract_json_object_in_prose (a m c : pystr) :
  str_contains (pys "```") (a ++ re.lbrace :: m ++ re.rbrace :: c) = false ->
  ~ In re.lbrace a ->
  ~ In re.rbrace c ->
  JSONHandler.extract_json (a ++ re.lbrace :: m ++ re.rbrace :: c)
  = Some (re.lbrace :: m ++ [re.rbrace]).
Proof.
  intros Hfree Ha Hc. unfold JSONHandler.extract_json.
  match goal with
  | |- context [re.sub_fence (re.sub_json_fence ?t)] =>
      fold (without_fences t); rewrite (without_fences_free t Hfree)
  end.
  rewrite (search_braces_object _ _ _ Ha Hc). reflexivity.
Qed.

Lemma extract_json_object_in_prose_witness :
  JSONHandler.extract_json
    (pys "Here are the events: " ++ re.lbrace :: pys "} {" ++ re.rbrace
     :: pys " Enjoy!")
  = Some (re.lbrace :: pys "} {" ++ [re.rbrace]).
Proof.
  apply extract_json_object_in_prose.
  - reflexivity.
  - vm_compute. intuition discriminate.
  - vm_compute. intuition discriminate.
Defined.

(** ** What the decoder returns, and formatting it *)

Section DecoderOutput.

Context {F : FloatText}.












End DecoderOutput.



(** ** A JSON object inside a fenced block *)

Lemma remove_matches_keep (m : pystr -> option nat) (c : pychar) (s : pystr) :
  m (c :: s) = None ->
  re.remove_matches m 0 (c :: s) = c :: re.remove_matches m 0 s.
Proof. intros H. cbn [re.remove_matches]. rewrite H. reflexivity. Qed.

Lemma remove_matches_match (m : pystr -> option nat) (c : pychar) (s : pystr)
  (len : nat) :
  m (c :: s) = Some (S len) ->
  re.remove_matches m 0 (c :: s) = re.remove_matches m 0 (skipn len s).
Proof.
  intros H. cbn [re.remove_matches]. rewrite H. apply remove_matches_skip.
Qed.

Lemma match_marker_head (mk : pystr) (c : pychar) (s : pystr) :
  c <> re.backtick -> re.match_marker (re.backtick :: mk) (c :: s) = None.
Proof.
  intros Hc. unfold re.match_marker. cbn [strip_prefix].
  destruct (chr_eqb re.backtick c) eqn:He; [|reflexivity].
  apply chr_eqb_eq in He. congruence.
Qed.

(** A marker pattern leaves a stretch without backticks as it is. *)
Lemma remove_marker_free_prefix (mk a s : pystr) :
  ~ In re.backtick a ->
  re.remove_matches (re.match_marker (re.backtick :: mk)) 0 (a ++ s)
  = a ++ re.remove_matches (re.match_marker (re.backtick :: mk)) 0 s.
Proof.
  induction a as [|c a IH]; intros Ha; [reflexivity|].
  cbn [app]. rewrite remove_matches_keep.
  - rewrite IH; [reflexivity|]. intros H. apply Ha. right. exact H.
  - apply match_marker_head. intros ->. apply Ha. left. reflexivity.
Qed.

Lemma skipn_length_app {A} (l r : list A) (k : nat) :
  skipn (length l + k) (l ++ r) = skipn k r.
Proof. induction l as [|x l IH]; [reflexivity | exact IH]. Qed.

(** Where the marker stands, it goes with the white space after it. *)
Lemma remove_marker_at (mk r : pystr) :
  re.remove_matches (re.match_marker (re.backtick :: mk)) 0
                    ((re.backtick :: mk) ++ r)
  = re.remove_matches (re.match_marker (re.backtick :: mk)) 0 (lstrip r).
Proof.
  cbn [app]. rewrite (@remove_matches_match _ _ _ (length mk + re.spaces r)).
  - rewrite skipn_length_app, skipn_spaces. reflexivity.
  - unfold re.match_marker.
    change (re.backtick :: mk ++ r) with ((re.backtick :: mk) ++ r).
    rewrite strip_prefix_of_app. reflexivity.
Qed.

Lemma sub_json_fence_at (a r : pystr) :
  ~ In re.backtick a ->
  re.sub_json_fence (a ++ pys "```json" ++ r)
  = a ++ re.sub_json_fence (lstrip r).
Proof.
  intros Ha. unfold re.sub_json_fence.
  change (pys "```json") with (re.backtick :: pys "``json").
  rewrite (@remove_marker_free_prefix _ _ _ Ha), remove_marker_at. reflexivity.
Qed.

Lemma sub_fence_at (a r : pystr) :
  ~ In re.backtick a ->
  re.sub_fence (a ++ pys "```" ++ r) = a ++ re.sub_fence (lstrip r).
Proof.
  intros Ha. unfold re.sub_fence.
  change (pys "```") with (re.backtick :: pys "``").
  rewrite (@remove_marker_free_prefix _ _ _ Ha), remove_marker_at. reflexivity.
Qed.

Lemma sub_json_fence_free_prefix (a s : pystr) :
  ~ In re.backtick a ->
  re.sub_json_fence (a ++ s) = a ++ re.sub_json_fence s.
Proof.
  intros Ha. unfold re.sub_json_fence.
  change (pys "```json") with (re.backtick :: pys "``json").
  apply remove_marker_free_prefix, Ha.
Qed.

Lemma backtick_free_no_fence (s : pystr) :
  ~ In re.backtick s -> str_contains (pys "```") s = false.
Proof.
  induction s as [|c s IH]; intros Hs; [reflexivity|].
  cbn [str_contains]. rewrite IH by (intros H; apply Hs; right; exact H).
  rewrite orb_false_r. change (pys "```") with (re.backtick :: pys "``").
  rewrite startswith_cons.
  destruct (chr_eqb re.backtick c) eqn:Hc; [|reflexivity].
  apply chr_eqb_eq in Hc. exfalso. apply Hs. left. symmetry. exact Hc.
Qed.

Lemma In_lstrip (x : pychar) (s : pystr) : In x (lstrip s) -> In x s.
Proof.
  intros H. destruct (lstrip_suffix s) as [a Ha]. rewrite Ha.
  apply in_or_app. right. exact H.
Qed.

Lemma lstrip_spaces (ws : pystr) (x : pychar) (t : pystr) :
  forallb isspace ws = true -> isspace x = false ->
  lstrip (ws ++ x :: t) = x :: t.
Proof.
  intros Hws Hx. induction ws as [|w ws IH]; cbn [app lstrip].
  - rewrite Hx. reflexivity.
  - cbn [forallb] in Hws. apply andb_prop in Hws as [Hw Hws].
    rewrite Hw. apply IH, Hws.
Qed.

Lemma spaces_lack (x : pychar) (ws : pystr) :
  isspace x = false -> forallb isspace ws = true -> ~ In x ws.
Proof.
  intros Hx Hws Hin. rewrite forallb_forall in Hws.
  rewrite (Hws _ Hin) in Hx. discriminate.
Qed.

(** The closing fence goes in one pass or the other, with nothing of
    what follows it but its beginning. *)
Lemma closing_fence_removed (q c : pystr) :
  ~ In re.backtick q -> ~ In re.backtick c ->
  exists p c',
    c = p ++ c' /\
    re.sub_fence (q ++ re.sub_json_fence (pys "```" ++ c)) = q ++ c'.
Proof.
  intros Hq Hc.
  destruct (strip_prefix (pys "json") c) as [r|] eqn:Hj.
  - apply strip_prefix_app in Hj.
    destruct (lstrip_suffix r) as [sp Hsp].
    exists (pys "json" ++ sp), (lstrip r). split.
    + rewrite Hj, <- app_assoc. f_equal. exact Hsp.
    + assert (Hr : ~ In re.backtick (lstrip r)).
      { intros H. apply Hc. rewrite Hj. apply in_or_app. right.
        apply In_lstrip, H. }
      rewrite Hj.
      change (pys "```" ++ pys "json" ++ r) with ([] ++ pys "```json" ++ r).
      rewrite sub_json_fence_at by (intros []). cbn [app].
      rewrite (@sub_json_fence_free _ (@backtick_free_no_fence _ Hr)).
      apply sub_fence_free, backtick_free_no_fence.
      intros H. apply in_app_or in H as [H|H]; [exact (Hq H) | exact (Hr H)].
  - destruct (lstrip_suffix c) as [sp Hsp].
    exists sp, (lstrip c). split; [exact Hsp|].
    assert (Hkeep : re.sub_json_fence (pys "```" ++ c) = pys "```" ++ c).
    { change (pys "```" ++ c)
        with (re.backtick :: re.backtick :: re.backtick :: c).
      assert (Hhead : forall t, startswith (re.backtick :: c)
                                  (re.backtick :: re.backtick :: t) = false).
      { intros t. rewrite startswith_cons, chr_eqb_refl.
        destruct c as [|x c']; [reflexivity|].
        rewrite startswith_cons.
        destruct (chr_eqb re.backtick x) eqn:Hx; [|reflexivity].
        apply chr_eqb_eq in Hx. exfalso. apply Hc. left. symmetry. exact Hx. }
      rewrite !sub_json_fence_keep.
      - rewrite (@sub_json_fence_free _ (@backtick_free_no_fence _ Hc)).
        reflexivity.
      - change (pys "```json") with (re.backtick :: re.backtick :: pys "`json").
        apply Hhead.
      - change (pys "```json") with (re.backtick :: re.backtick :: pys "`json").
        rewrite startswith_cons, chr_eqb_refl. apply Hhead.
      - unfold startswith.
        change (pys "```json")
          with (re.backtick :: re.backtick :: re.backtick :: pys "json").
        cbn [strip_prefix]. rewrite !chr_eqb_refl, Hj. reflexivity. }
    rewrite Hkeep, (@sub_fence_at _ _ Hq).
    rewrite sub_fence_free; [reflexivity|].
    apply backtick_free_no_fence. intros H. apply Hc, In_lstrip, H.
Qed.

(** X14.  A JSON object in a fenced block is extracted exactly: for a
    text made of prose, an opening fence [```json], white space, an
    object, white space, a closing fence and more prose, where no backtick
    occurs outside the fences, no opening brace before the block and no
    closing brace after it, [extract_json] returns the object, braces
    included, and nothing else. *)
Theorem extract_json_fenced_object (a ws m ws' c : pystr) :
  ~ In re.backtick a -> ~ In re.backtick m -> ~ In re.backtick c ->
  forallb isspace ws = true -> forallb isspace ws' = true ->
  ~ In re.lbrace a -> ~ In re.rbrace c ->
  JSONHandler.extract_json
    (a ++ pys "```json" ++ ws ++ re.lbrace :: m ++ re.rbrace :: ws'
     ++ pys "```" ++ c)
  = Some (re.lbrace :: m ++ [re.rbrace]).
Proof.
  intros Ha Hm Hc Hws Hws' Hla Hrc.
  assert (Hq : ~ In re.backtick (a ++ re.lbrace :: m ++ re.rbrace :: ws')).
  { intros H. apply in_app_or in H as [H|[H|H]]; [exact (Ha H) | discriminate|].
    apply in_app_or in H as [H|[H|H]]; [exact (Hm H) | discriminate|].
    revert H. apply spaces_lack; [reflexivity | exact Hws']. }
  destruct (@closing_fence_removed _ _ Hq Hc) as (p & c' & Hcc & Hsub).
  unfold JSONHandler.extract_json.
  rewrite (@sub_json_fence_at _ _ Ha).
  rewrite (@lstrip_spaces ws re.lbrace _ Hws eq_refl).
  assert (Hpass : re.sub_fence
                    (a ++ re.sub_json_fence
                            (re.lbrace :: m ++ re.rbrace :: ws' ++ pys "```" ++ c))
                  = a ++ re.lbrace :: m ++ re.rbrace :: ws' ++ c').
  { assert (Hbody : ~ In re.backtick (re.lbrace :: m ++ re.rbrace :: ws')).
    { intros H. apply Hq, in_or_app. right. exact H. }
    replace (re.lbrace :: m ++ re.rbrace :: ws' ++ pys "```" ++ c)
      with ((re.lbrace :: m ++ re.rbrace :: ws') ++ pys "```" ++ c)
      by (cbn [app]; rewrite <- app_assoc; reflexivity).
    rewrite (@sub_json_fence_free_prefix _ _ Hbody), app_assoc, Hsub.
    rewrite <- app_assoc. cbn [app]. rewrite <- app_assoc. reflexivity. }
  rewrite Hpass.
  rewrite search_braces_object; [reflexivity | exact Hla |].
  intros H. apply in_app_or in H as [H|H].
  - revert H. apply spaces_lack; [reflexivity | exact Hws'].
  - apply Hrc. rewrite Hcc. apply in_or_app. right. exact H.
Qed.

Lemma extract_json_fenced_object_witness :
  JSONHandler.extract_json
    (pys "Sure! " ++ pys "```json" ++ [10%N]
     ++ re.lbrace :: quoted "events" ++ pys ": []" ++ re.rbrace :: [10%N]
     ++ pys "```" ++ pys "json is above.")
  = Some (re.lbrace :: quoted "events" ++ pys ": []" ++ [re.rbrace]).
Proof.
  apply (@extract_json_fenced_object (pys "Sure! ") [10%N]
           (quoted "events" ++ pys ": []") [10%N] (pys "json is above."));
    try reflexivity; vm_compute; intuition discriminate.
Defined.

(** ** What a run does, and what it shows *)

Lemma reports_no_action (t : list event) :
  forallb is_report t = true -> actions t = [].
Proof.
  induction t as [|e t IH]; [reflexivity|]. cbn [forallb]. intros H.
  apply andb_prop in H as [He Ht].
  destruct e as [l| | |]; try discriminate. exact (IH Ht).
Qed.

Lemma reports_no_results (t : list event) :
  forallb is_report t = true -> existsb is_results t = false.
Proof.
  induction t as [|e t IH]; [reflexivity|]. cbn [forallb existsb]. intros H.
  apply andb_prop in H as [He Ht]. rewrite (IH Ht).
  destruct e as [[]| | |]; try discriminate; reflexivity.
Qed.

Lemma violation_is_report (l : line) :
  is_violation l = true -> is_report (Print l) = true.
Proof. destruct l; cbn; congruence. Qed.


Section Runs.

Context {F : FloatText}.

Import JSONHandler.

#[local] Arguments Nat.ltb : simpl never.
#[local] Arguments Nat.eqb : simpl never.

(** Validation only prints reports. *)
Lemma validate_reports (data : pyval) :
  forallb is_report (fst (validate_event_structure data)) = true.
Proof.
  unfold validate_event_structure.
  destruct (py_in_result (pys "events") data) as [[has Hhas]|Hhas];
    rewrite Hhas; cbn; [|reflexivity].
  destruct has; cbn; [|reflexivity].
  destruct data as [| | | | | | |d]; cbn; try reflexivity.
  destruct (dict_get (pys "events") d) as [events|]; cbn; [|reflexivity].
  destruct events as [| | | | |events| |]; cbn; try reflexivity.
  destruct (check_events_result 0 events) as [|l Hl|e]; cbn.
  - destruct (length events <? 10)%nat; cbn; [reflexivity|].
    destruct (length events =? 10)%nat; reflexivity.
  - destruct l; try discriminate; reflexivity.
  - reflexivity.
Qed.

(** So does [process_response]. *)
Lemma process_response_reports (text : pystr) :
  forallb is_report (fst (process_response text)) = true.
Proof.
  destruct (proj2 (extract_json_is_some text)) as [clean He].
  unfold process_response. rewrite fst_bind.
  destruct (loads_result clean) as [[v Hv]|(msg & pos & Hr)].
  - rewrite (parse_json_ok _ He Hv). cbn [fst snd app].
    pose proof (validate_reports v) as Hval.
    destruct v; try reflexivity;
      rewrite fst_bind, forallb_app, Hval;
      match goal with
      | |- context [snd ?m] => destruct (snd m) as [[|]|x]
      end; reflexivity.
  - rewrite (parse_json_error _ He Hr). reflexivity.
Qed.

#[local] Arguments OpenAIClient.search_events : simpl never.
#[local] Arguments process_response : simpl never.

(** The trace of [main], stage by stage. *)
Lemma main_trace (w : Main.world) :
  exists before after,
    forallb is_report before = true /\
    fst (Main.main w) =
      before ++
      match Config.validate (Main.OPENAI_API_KEY w), setup_fault w with
      | Ok _, None =>
          fst (OpenAIClient.search_events Config.MAX_RETRIES (Main.responses w))
          ++ after
      | _, _ => after
      end /\
    actions after = [] /\
    (existsb is_results after = true <-> kind_of_run w = Success).
Proof.
  unfold Main.main, Main.main_body, kind_of_run, setup_fault.
  destruct (validate_config_result (Main.OPENAI_API_KEY w)) as [Hc|[msg Hc]];
    rewrite Hc.
  2:{ eexists _, _. split; [|split; [reflexivity|]]; [reflexivity|].
      split; [reflexivity|]. split; discriminate. }
  destruct (Main.get_today_info w) as [[|e]|].
  1,2: eexists [Print Header; Print ValidatingConfiguration;
                Print ConfigurationValid], _;
       (split; [reflexivity|]); (split; [reflexivity|]);
       (split; [reflexivity|]); split; discriminate.
  destruct (Main.OpenAI w) as [[|e]|].
  1,2: eexists [Print Header; Print ValidatingConfiguration;
                Print ConfigurationValid; Print SearchInfo;
                Print InitializingClient], _;
       (split; [reflexivity|]); (split; [reflexivity|]);
       (split; [reflexivity|]); split; discriminate.
  exists preamble.
  destruct (OpenAIClient.search_events Config.MAX_RETRIES (Main.responses w))
    as [t [[response|]|x]] eqn:Hs; cbn [fst snd].
  - pose proof (process_response_reports response) as Hrep.
    destruct (process_response response) as [tp [[formatted|]|x]] eqn:Hp;
      cbn [fst snd] in *.
    + exists (Print ProcessingResponse :: tp
              ++ [Print (Results formatted); Print SearchCompleted]).
      split; [reflexivity|]. split; [cbn; rewrite Hp; reflexivity|].
      split.
      * unfold actions. cbn [filter is_action]. rewrite filter_app.
        fold (actions tp). rewrite (reports_no_action _ Hrep). reflexivity.
      * cbn [existsb is_results]. rewrite existsb_app. cbn.
        rewrite orb_true_r. split; reflexivity.
    + exists (Print ProcessingResponse :: tp
              ++ [Print FailedToProcess; Print (RawResponse (Main.shown response))]).
      split; [reflexivity|]. split; [cbn; rewrite Hp; reflexivity|].
      split.
      * unfold actions. cbn [filter is_action]. rewrite filter_app.
        fold (actions tp). rewrite (reports_no_action _ Hrep). reflexivity.
      * cbn [existsb is_results]. rewrite existsb_app.
        rewrite (reports_no_results _ Hrep). cbn. split; discriminate.
    + exists (Print ProcessingResponse :: tp
              ++ match x with
                 | KeyboardInterrupt => [Print SearchCancelled]
                 | Exception e => [Print (UnexpectedError e); PrintTraceback]
                 | SystemExit _ => []
                 end).
      split; [reflexivity|].
      split; [cbn; rewrite Hp; destruct x; cbn; rewrite <- ?app_assoc;
              try reflexivity; rewrite !List.app_nil_r; reflexivity|].
      split.
      * unfold actions. cbn [filter is_action]. rewrite filter_app.
        fold (actions tp). rewrite (reports_no_action _ Hrep).
        destruct x; reflexivity.
      * cbn [existsb is_results]. rewrite existsb_app.
        rewrite (reports_no_results _ Hrep).
        destruct x; cbn; split; discriminate.
  - exists [Print FailedToRetrieve; Print PossibleReasons].
    split; [reflexivity|]. split; [cbn; reflexivity|].
    split; [reflexivity|]. cbn. split; discriminate.
  - exists (match x with
            | KeyboardInterrupt => [Print SearchCancelled]
            | Exception e => [Print (UnexpectedError e); PrintTraceback]
            | SystemExit _ => []
            end).
    split; [reflexivity|].
    split; [cbn; destruct x; cbn; rewrite ?List.app_nil_r; reflexivity|].
    split; [destruct x; reflexivity|].
    destruct x; cbn; split; discriminate.
Qed.

(** X15.  The requests and waits of a run are those of the one call to
    [search_events]: [main] makes none when the configuration is invalid
    or the setup fails, none after the search has returned, whatever comes
    of the response, and so at most [MAX_RETRIES] requests in all, at the
    attempt indices 0, 1, 2 in that order. *)
Theorem main_requests_are_the_search (w : Main.world) :
  actions (fst (Main.main w)) =
    match Config.validate (Main.OPENAI_API_KEY w), setup_fault w with
    | Ok _, None =>
        actions (fst (OpenAIClient.search_events Config.MAX_RETRIES
                        (Main.responses w)))
    | _, _ => []
    end /\
  exists j, requests (fst (Main.main w)) = firstn j [0; 1; 2]%Z.
Proof.
  destruct (main_trace w) as (before & after & Hb & Ht & Ha & _).
  assert (Hact : actions (fst (Main.main w)) =
            match Config.validate (Main.OPENAI_API_KEY w), setup_fault w with
            | Ok _, None =>
                actions (fst (OpenAIClient.search_events Config.MAX_RETRIES
                                (Main.responses w)))
            | _, _ => []
            end).
  { rewrite Ht, actions_app, (reports_no_action _ Hb). cbn [app].
    destruct (Config.validate (Main.OPENAI_API_KEY w)); [|exact Ha].
    destruct (setup_fault w); [exact Ha|].
    rewrite actions_app, Ha. apply List.app_nil_r. }
  split; [exact Hact|].
  rewrite <- requests_actions, Hact.
  destruct (Config.validate (Main.OPENAI_API_KEY w)); [|exists 0; reflexivity].
  destruct (setup_fault w); [exists 0; reflexivity|].
  rewrite requests_actions.
  destruct (attempts_loop_bounds Config.MAX_RETRIES (Main.responses w)
              (py_range Config.MAX_RETRIES)) as ((j & Hreq) & _).
  exists j. exact Hreq.
Qed.


End Runs.

(** ** The small functions of [main.py] and [config.py] *)

(** X17.  What is shown of a response that could not be processed: the
    response itself when it has at most 500 characters, and otherwise its
    first 500 characters followed by three dots, 503 characters in all. *)
Theorem shown_is_bounded (response : pystr) :
  length (Main.shown response) <= 503 /\
  firstn 500 (Main.shown response) = firstn 500 response /\
  (length response <= 500 -> Main.shown response = response) /\
  (500 < length response -> length (Main.shown response) = 503).
Proof.
  unfold Main.shown, pystr, pychar in *.
  destruct (500 <? length response) eqn:Hlen.
  - apply Nat.ltb_lt in Hlen.
    assert (Hf : length (firstn 500 response) = 500)
      by (rewrite length_firstn; lia).
    assert (Hdots : length (firstn 500 response ++ pys "...") = 503)
      by (rewrite length_app, Hf; reflexivity).
    split; [rewrite Hdots; apply le_n|].
    split; [|split; [intros H; exfalso; lia | intros _; exact Hdots]].
    rewrite firstn_app, Hf, Nat.sub_diag, firstn_firstn.
    cbn [firstn Nat.min]. apply List.app_nil_r.
  - apply Nat.ltb_ge in Hlen.
    split; [lia|]. split; [reflexivity|]. split; [reflexivity | lia].
Qed.

(** X18.  [Config.validate] never returns [False]: it returns [True]
    for exactly the keys that start with [sk-], and raises a
    [ValueError] for any other key, the empty one included. *)
Theorem validate_config_accepts (key : pystr) :
  (Config.validate key = Ok true <-> startswith key (pys "sk-") = true) /\
  Config.validate key <> Ok false /\
  (startswith key (pys "sk-") = false ->
   exists msg, Config.validate key = Raise (Exception (ValueError msg))).
Proof.
  unfold Config.validate. destruct key as [|c key].
  - split; [split; discriminate|]. split; [discriminate|]. eauto.
  - destruct (startswith (c :: key) (pys "sk-")); cbn [negb].
    + split; [split; reflexivity|]. split; discriminate.
    + split; [split; discriminate|]. split; [discriminate|]. eauto.
Qed.

(** ** The output of [process_response], processed again *)

Section Stability.

Context {F : FloatText}.

Import JSONHandler.



End Stability.


(** ** The event a violation names *)

Section Blame.

Context {F : FloatText}.

Import JSONHandler.

#[local] Arguments Nat.ltb : simpl never.
#[local] Arguments Nat.eqb : simpl never.

(** The loop over the fields of a dictionary: every field is there, or
    the first one that is not is reported under the event's number. *)
Lemma check_fields_dict (number : nat) (d : list (pystr * pyval))
  (fields : list pystr) :
  check_fields number (PDict d) fields = ([], Ok Fell) \/
  exists field,
    check_fields number (PDict d) fields
    = ([Print (EventMissingField number field)], Ok (Returned false)).
Proof.
  induction fields as [|field rest IH]; [left; reflexivity|].
  cbn [check_fields]. cbn [py_in lift bind].
  destruct (dict_has field d); cbn [negb].
  - destruct IH as [IH|[f IH]]; rewrite IH; [left | right; exists f];
      reflexivity.
  - right. exists field. reflexivity.
Qed.

(** A dictionary that is not a well-shaped event is reported, under its
    number. *)
Lemma check_event_dict_bad (i : nat) (e : list (pystr * pyval)) :
  well_shaped (PDict e) = false ->
  exists l,
    check_event i (PDict e) = ([Print l], Ok (Returned false)) /\
    blamed_event l = Some (i + 1).
Proof.
  intros Hbad. unfold check_event.
  destruct (check_fields_dict (i + 1) e required_fields) as [Hf|[field Hf]].
  - assert (Hall : forallb (fun field => dict_has field e) required_fields
                   = true)
      by (apply (check_fields_fell (i + 1)); rewrite Hf; reflexivity).
    unfold well_shaped in Hbad. rewrite Hall in Hbad. cbn [andb] in Hbad.
    rewrite Hf. cbn [bind app lift py_get].
    destruct (dict_get (pys "instagram_handles") e) as [[]|];
      try (eexists; split; reflexivity).
    destruct (dict_get (pys "is_free") e) as [[]|];
      try (eexists; split; reflexivity).
    destruct (dict_get (pys "is_sold_out") e) as [[]|];
      try (eexists; split; reflexivity).
    discriminate.
  - rewrite Hf. eexists. split; reflexivity.
Qed.

(** X20.  A violation is reported under the number of the first
    offending event, counted from 1: when the events before some
    dictionary are well shaped and that dictionary is not, whether a
    field is missing or [instagram_handles], [is_free] or [is_sold_out]
    has the wrong type, validation returns [False] after a single line,
    which names the event by its position in the list. *)
Theorem validate_blames_first_bad_event
  (d : list (pystr * pyval)) (good : list pyval)
  (e : list (pystr * pyval)) (rest : list pyval) :
  dict_get (pys "events") d = Some (PList (good ++ PDict e :: rest)) ->
  forallb well_shaped good = true ->
  well_shaped (PDict e) = false ->
  exists l,
    validate_event_structure (PDict d) = ([Print l], Ok false) /\
    blamed_event l = Some (length good + 1).
Proof.
  intros Hget Hgood Hbad.
  destruct (check_event_dict_bad (0 + length good) e Hbad) as (l & Hl & Hn).
  exists l. split; [|exact Hn].
  unfold validate_event_structure. cbn [py_in py_getitem lift bind].
  rewrite (dict_get_has _ _ Hget). cbn [negb]. rewrite Hget.
  rewrite (@check_events_first_bad _ 0 good (PDict e) rest [Print l] false
             Hgood Hl).
  reflexivity.
Qed.

End Blame.

Lemma validate_blames_first_bad_event_witness :
  exists l,
    JSONHandler.validate_event_structure
      (response_with [sample_event; event_bad_is_free; event_missing_two])
    = ([Print l], Ok false) /\
    blamed_event l = Some 2.
Proof.
  refine (@validate_blames_first_bad_event literal_floats _ [sample_event]
            _ [event_missing_two] _ _ _); reflexivity.
Defined.

(** ** Instances of the statements above *)

Lemma validate_accepts_exactly_well_shaped_witness :
  snd (JSONHandler.validate_event_structure (response_with [sample_event]))
  = Ok true.
Proof.
  apply (proj1 (validate_accepts_exactly_well_shaped
                  (response_with [sample_event]))).
  eexists _, [sample_event]. split; [reflexivity|]. split; reflexivity.
Defined.


Lemma shown_is_bounded_witness :
  Main.shown (pys "Sorry, I found nothing today.")
  = pys "Sorry, I found nothing today." /\
  length (Main.shown (repeat 120%N 501)) = 503.
Proof.
  split.
  - apply (shown_is_bounded (pys "Sorry, I found nothing today.")).
    vm_compute. repeat constructor.
  - apply (shown_is_bounded (repeat 120%N 501)).
    rewrite repeat_length. apply le_n.
Defined.

Lemma validate_config_accepts_witness :
  Config.validate (pys "sk-test") = Ok true /\
  exists msg,
    Config.validate (pys "pk-test") = Raise (Exception (ValueError msg)).
Proof.
  split.
  - apply validate_config_accepts. reflexivity.
  - apply validate_config_accepts. reflexivity.
Defined.
